(** * Ping-booster edge worker: a shallow embedding of [worker.js]

    The worker keeps process-wide singletons ([CONFIG], [connectionPool],
    [rateLimiter], [healthChecker], [cacheManager]) and mutates them from
    [handleRequest] and [handleScheduled].  Here every singleton is a field
    of one explicit [World] record that each operation takes and returns.
    What the runtime supplies (the clock, the edge cache's failures, the
    backend's answer) is an explicit argument of the operation.

    Integer counters and millisecond timestamps are [Z]. *)

From stdpp Require Import gmap strings list fin_maps pretty sorting.
From Stdlib Require Import ZArith Ascii.

Open Scope Z_scope.

(** ** Header names

    A [Headers] object matches names without regard to ASCII case. *)

Definition lower_ascii (c : ascii) : ascii :=
  let n := N_of_ascii c in
  if ((65 <=? n) && (n <=? 90))%N then ascii_of_N (n + 32) else c.

Fixpoint lower (s : string) : string :=
  match s with
  | EmptyString => EmptyString
  | String c s' => String (lower_ascii c) (lower s')
  end.

Definition same_name (a b : string) : bool := String.eqb (lower a) (lower b).

(** ** [Headers] objects

    A header list in insertion order.  [get] combines the values of all
    entries of a name, [set] overwrites the first and drops the others,
    [delete] drops them all. *)

Module Headers.

Definition t := list (string * string).

Definition named (name : string) (e : string * string) : bool :=
  same_name e.1 name.

Definition get (name : string) (h : t) : option string :=
  match List.filter (named name) h with
  | [] => None
  | e :: es => Some (foldl (λ acc e', acc +:+ ", " +:+ e'.2) e.2 es)
  end.

Definition delete (name : string) (h : t) : t :=
  List.filter (λ e, negb (named name e)) h.

Fixpoint set (name value : string) (h : t) : t :=
  match h with
  | [] => [(lower name, value)]
  | e :: h' =>
      if named name e then (e.1, value) :: delete name h'
      else e :: set name value h'
  end.

Definition has (name : string) (h : t) : bool := existsb (named name) h.

End Headers.

(** [x || d] on the result of [headers.get]: [null] and the empty string
    are falsy. *)
Definition or_default (x : option string) (d : string) : string :=
  match x with
  | Some s => if String.eqb s "" then d else s
  | None => d
  end.

(** ** JSON values

    The result of [JSON.parse], and the argument of [JSON.stringify].
    [N] is the type of numbers.  An object lists its own properties, one
    per key. *)

#[warnings="-register-all"]
Inductive json (N : Type) : Type :=
  | JNull
  | JBool (b : bool)
  | JNum (n : N)
  | JStr (s : string)
  | JArr (items : list (json N))
  | JObj (fields : list (string * json N)).

Arguments JNull {N}.
Arguments JBool {N} b.
Arguments JNum {N} n.
Arguments JStr {N} s.
Arguments JArr {N} items.
Arguments JObj {N} fields.

(** Own property [key] of an object's field list. *)
Fixpoint field {N : Type} (key : string) (fields : list (string * json N))
    : option (json N) :=
  match fields with
  | [] => None
  | (k, v) :: rest => if String.eqb k key then Some v else field key rest
  end.

(** The keys of the top-level fields of a value sent as JSON. *)
Definition keys {N : Type} (v : json N) : list string :=
  match v with
  | JObj fields => fields.*1
  | _ => []
  end.

(** ** Rate limiter ([class RateLimiter]) *)

Module RateLimiter.

Record Settings := {
  enabled : bool;
  requestsPerMinute : Z;
  windowMs : Z;
}.

(** [requests.filter(timestamp => timestamp > windowStart)] *)
Definition newer_than (windowStart : Z) (requests : list Z) : list Z :=
  filter (λ timestamp, windowStart < timestamp) requests.

(** [checkLimit(clientId)], with [now] the value of [Date.now()] and
    [table] the [this.requests] map. *)
Definition checkLimit (cfg : Settings) (now : Z) (clientId : string)
    (table : gmap string (list Z)) : bool * gmap string (list Z) :=
  if negb (enabled cfg) then (true, table)
  else
    let windowStart := now - windowMs cfg in
    let requests := default [] (table !! clientId) in
    let requests := newer_than windowStart requests in
    if Z.of_nat (length requests) >=? requestsPerMinute cfg then (false, table)
    else (true, <[clientId := requests ++ [now]]> table).

(** The body of the loop of [cleanup()] as a function of one client's
    list: [None] for [delete], [Some] for [set]. *)
Definition pruned_entry (cfg : Settings) (now : Z) (requests : list Z)
    : option (list Z) :=
  let validRequests := newer_than (now - windowMs cfg) requests in
  if (length validRequests =? 0)%nat then None else Some validRequests.

(** One turn of the loop of [cleanup()] on the entry [(clientId, requests)]. *)
Definition cleanup_entry (cfg : Settings) (now : Z)
    (table : gmap string (list Z)) (entry : string * list Z)
    : gmap string (list Z) :=
  let validRequests := newer_than (now - windowMs cfg) entry.2 in
  if (length validRequests =? 0)%nat then delete entry.1 table
  else <[entry.1 := validRequests]> table.

(** [cleanup()]: the loop runs over the entries of the map it updates;
    deleting or overwriting the entry being visited adds no entry to
    the iteration. *)
Definition cleanup (cfg : Settings) (now : Z) (table : gmap string (list Z))
    : gmap string (list Z) :=
  foldl (cleanup_entry cfg now) table (map_to_list table).

(** Requests of one client at the given instants, in order. *)
Definition admissions (cfg : Settings) (clientId : string) (times : list Z)
    (table : gmap string (list Z)) : list bool * gmap string (list Z) :=
  foldl (λ acc now,
           let r := checkLimit cfg now clientId acc.2 in
           (acc.1 ++ [r.1], r.2))
        ([], table) times.

End RateLimiter.

(** ** Data of the gateway *)

Module Backend.
(** One entry of [CONFIG.backends]. *)
Record t := {
  url : string;
  priority : Z;
  region : string;
  healthy : bool;
}.

(** [backend.healthy = h] *)
Definition set_healthy (h : bool) (b : t) : t :=
  {| url := url b; priority := priority b; region := region b; healthy := h |}.
End Backend.

Module Request.
(** A [Request]; [pathname] and [search] are those of [new URL(request.url)]. *)
Record t := {
  method : string;
  url : string;
  pathname : string;
  search : string;
  headers : Headers.t;
  body : option string;
}.
End Request.

Module Response.
Inductive Body :=
  | Empty                         (* [null] *)
  | Text (s : string)
  | Json (v : json Z)             (* [JSON.stringify(v)] *)
  | Stream (content : string).    (* a body received from a backend *)

Record t := {
  status : Z;
  statusText : string;
  headers : Headers.t;
  body : Body;
  webSocket : option nat;         (* the client end of a socket pair *)
}.

(** [new Response(body, { status, headers })] *)
Definition make (b : Body) (st : Z) (h : Headers.t) : t :=
  {| status := st; statusText := ""; headers := h; body := b;
     webSocket := None |}.

Definition with_headers (h : Headers.t) (r : t) : t :=
  {| status := status r; statusText := statusText r; headers := h;
     body := body r; webSocket := None |}.
End Response.

(** The parts of [CONFIG] that are never written. *)
Record Config := {
  websocket_keepAliveInterval : Z;
  cache_ttl : Z;
  cache_bypassPaths : list string;
  rateLimit : RateLimiter.Settings;
  optimization_compression : bool;
  optimization_http2 : bool;
  optimization_keepAlive : bool;
  healthCheck_timeout : Z;
}.

(** [connectionPool.metrics] *)
Record Metrics := {
  activeConnections : Z;
  totalRequests : Z;
  cacheHits : Z;
  cacheMisses : Z;
}.

(** A call made to the edge cache [caches.default]. *)
Inductive CacheCall :=
  | Match (url : string)
  | Put (url : string) (response : Response.t).

(** A call made to [fetch].  Its url is [new URL(reference, base)]: the
    record keeps the two arguments, [fetch_backend] for the base, which is
    the url of the chosen backend, and [fetch_path] for the reference,
    which is the pathname and search of the request; then the method and
    the headers. *)
Record Fetch := {
  fetch_backend : string;
  fetch_path : string;
  fetch_method : string;
  fetch_headers : Headers.t;
}.

(** Where [new URL(reference, base)] points, for a reference that is a
    pathname followed by a search.  A reference that begins with two
    slashes is scheme-relative: the host is read from the reference (no
    url is built when it names none) and the base gives the scheme only.
    A reference with one leading slash replaces the path and query of the
    base and keeps its scheme and host.  The pathname of a request always
    begins with a slash; any other reference is left unresolved. *)
Inductive Target :=
  | OnBase (base reference : string)
  | OffBase (reference : string)
  | Unresolved (base reference : string).

Definition target (call : Fetch) : Target :=
  if String.prefix "//" (fetch_path call) then OffBase (fetch_path call)
  else if String.prefix "/" (fetch_path call)
       then OnBase (fetch_backend call) (fetch_path call)
       else Unresolved (fetch_backend call) (fetch_path call).

(** A server socket made by [handleWebSocket]: accepted, with its
    keep-alive interval running or cleared. *)
Record Session := {
  accepted : bool;
  keepAlive : bool;
}.

(** All mutable state of the worker, and the calls it has made to the
    runtime. *)
Record World := {
  backends : list Backend.t;              (* [CONFIG.backends] *)
  connections : gmap string string;       (* [connectionPool.connections] *)
  metrics : Metrics;                      (* [connectionPool.metrics] *)
  requests : gmap string (list Z);        (* [rateLimiter.requests] *)
  healthStatus : gmap string bool;        (* [healthChecker.healthStatus] *)
  cache : gmap string Response.t;         (* content of [caches.default] *)
  cacheCalls : list CacheCall;
  fetches : list Fetch;
  sessions : list Session;
}.

Definition with_backends (v : list Backend.t) (w : World) : World :=
  {| backends := v; connections := connections w; metrics := metrics w;
     requests := requests w; healthStatus := healthStatus w; cache := cache w;
     cacheCalls := cacheCalls w; fetches := fetches w; sessions := sessions w |}.

Definition with_connections (v : gmap string string) (w : World) : World :=
  {| backends := backends w; connections := v; metrics := metrics w;
     requests := requests w; healthStatus := healthStatus w; cache := cache w;
     cacheCalls := cacheCalls w; fetches := fetches w; sessions := sessions w |}.

Definition with_metrics (v : Metrics) (w : World) : World :=
  {| backends := backends w; connections := connections w; metrics := v;
     requests := requests w; healthStatus := healthStatus w; cache := cache w;
     cacheCalls := cacheCalls w; fetches := fetches w; sessions := sessions w |}.

Definition with_requests (v : gmap string (list Z)) (w : World) : World :=
  {| backends := backends w; connections := connections w; metrics := metrics w;
     requests := v; healthStatus := healthStatus w; cache := cache w;
     cacheCalls := cacheCalls w; fetches := fetches w; sessions := sessions w |}.

Definition with_healthStatus (v : gmap string bool) (w : World) : World :=
  {| backends := backends w; connections := connections w; metrics := metrics w;
     requests := requests w; healthStatus := v; cache := cache w;
     cacheCalls := cacheCalls w; fetches := fetches w; sessions := sessions w |}.

Definition with_cache (v : gmap string Response.t) (w : World) : World :=
  {| backends := backends w; connections := connections w; metrics := metrics w;
     requests := requests w; healthStatus := healthStatus w; cache := v;
     cacheCalls := cacheCalls w; fetches := fetches w; sessions := sessions w |}.

Definition with_cacheCalls (v : list CacheCall) (w : World) : World :=
  {| backends := backends w; connections := connections w; metrics := metrics w;
     requests := requests w; healthStatus := healthStatus w; cache := cache w;
     cacheCalls := v; fetches := fetches w; sessions := sessions w |}.

Definition with_fetches (v : list Fetch) (w : World) : World :=
  {| backends := backends w; connections := connections w; metrics := metrics w;
     requests := requests w; healthStatus := healthStatus w; cache := cache w;
     cacheCalls := cacheCalls w; fetches := v; sessions := sessions w |}.

Definition with_sessions (v : list Session) (w : World) : World :=
  {| backends := backends w; connections := connections w; metrics := metrics w;
     requests := requests w; healthStatus := healthStatus w; cache := cache w;
     cacheCalls := cacheCalls w; fetches := fetches w; sessions := v |}.

(** ** Connection pool ([class ConnectionPool]) *)

Module ConnectionPool.

Definition with_activeConnections (n : Z) (m : Metrics) : Metrics :=
  {| activeConnections := n; totalRequests := totalRequests m;
     cacheHits := cacheHits m; cacheMisses := cacheMisses m |}.

(** [this.metrics.activeConnections = this.connections.size] *)
Definition refresh_size (w : World) : World :=
  with_metrics
    (with_activeConnections (Z.of_nat (size (connections w))) (metrics w)) w.

Definition getConnection (key : string) (w : World) : option string :=
  connections w !! key.

Definition setConnection (key connection : string) (w : World) : World :=
  refresh_size (with_connections (<[key := connection]> (connections w)) w).

Definition removeConnection (key : string) (w : World) : World :=
  refresh_size (with_connections (delete key (connections w)) w).

Definition getMetrics (w : World) : Metrics := metrics w.

(** [connectionPool.metrics.totalRequests++] *)
Definition count_request (w : World) : World :=
  let m := metrics w in
  with_metrics
    {| activeConnections := activeConnections m;
       totalRequests := totalRequests m + 1;
       cacheHits := cacheHits m; cacheMisses := cacheMisses m |} w.

(** [connectionPool.metrics.cacheHits++] *)
Definition count_hit (w : World) : World :=
  let m := metrics w in
  with_metrics
    {| activeConnections := activeConnections m;
       totalRequests := totalRequests m;
       cacheHits := cacheHits m + 1; cacheMisses := cacheMisses m |} w.

(** [connectionPool.metrics.cacheMisses++] *)
Definition count_miss (w : World) : World :=
  let m := metrics w in
  with_metrics
    {| activeConnections := activeConnections m;
       totalRequests := totalRequests m;
       cacheHits := cacheHits m; cacheMisses := cacheMisses m + 1 |} w.

End ConnectionPool.

(** ** Health checker ([class HealthChecker]) *)

Module HealthChecker.

(** What [fetch(backend.url + '/health')] did: it resolved with a
    response whose [ok] flag is given, or it threw or was aborted. *)
Inductive Probe :=
  | Answered (ok : bool)
  | Failed.

Definition checkHealth (p : Probe) : bool :=
  match p with
  | Answered ok => ok
  | Failed => false
  end.

(** [updateHealthStatus()], with [probe i] what the probe of the
    backend at index [i] did. *)
Definition updateHealthStatus (probe : nat → Probe) (w : World) : World :=
  let probed :=
    imap (λ i b, Backend.set_healthy (checkHealth (probe i)) b) (backends w) in
  let status :=
    foldl (λ m b, <[Backend.url b := Backend.healthy b]> m)
          (healthStatus w) probed in
  with_healthStatus status (with_backends probed w).

(** [sort((a, b) => a.priority - b.priority)]: the sort is stable, an
    element goes before the first one of a larger or equal priority
    among those that followed it. *)
Fixpoint insert_by_priority (x : nat * Backend.t) (l : list (nat * Backend.t))
    : list (nat * Backend.t) :=
  match l with
  | [] => [x]
  | y :: l' =>
      if Backend.priority x.2 <=? Backend.priority y.2 then x :: y :: l'
      else y :: insert_by_priority x l'
  end.

Definition sort_by_priority (l : list (nat * Backend.t))
    : list (nat * Backend.t) :=
  foldr insert_by_priority [] l.

(** [getHealthyBackends()].  The array holds the objects of
    [CONFIG.backends] themselves: each comes with its index there. *)
Definition getHealthyBackends (w : World) : list (nat * Backend.t) :=
  sort_by_priority
    (List.filter (λ ib, Backend.healthy ib.2) (imap pair (backends w))).

End HealthChecker.

(** ** Smart router ([class SmartRouter]) *)

Module SmartRouter.

(** The own properties of the [regions] object. *)
Definition regions : list (string * string) :=
  [("US", "us-east"); ("CA", "us-east"); ("GB", "eu-west");
   ("DE", "eu-west"); ("FR", "eu-west"); ("JP", "ap-east");
   ("CN", "ap-east"); ("AU", "ap-south")].

(** The properties [regions] inherits from [Object.prototype]; each is
    a function or an object. *)
Definition inherited : list string :=
  ["constructor"; "__defineGetter__"; "__defineSetter__"; "hasOwnProperty";
   "__lookupGetter__"; "__lookupSetter__"; "isPrototypeOf";
   "propertyIsEnumerable"; "toString"; "valueOf"; "__proto__";
   "toLocaleString"].

(** The value of [regions[country] || 'us-east']: a region name, or an
    inherited property, which is no string. *)
Inductive RegionValue :=
  | Name (r : string)
  | Inherited (property : string).

Fixpoint own (key : string) (table : list (string * string)) : option string :=
  match table with
  | [] => None
  | (k, v) :: rest => if String.eqb k key then Some v else own key rest
  end.

Definition getRegionFromCountry (country : string) : RegionValue :=
  match own country regions with
  | Some r => Name r
  | None =>
      if existsb (String.eqb country) inherited then Inherited country
      else Name "us-east"
  end.

(** [backend.region === clientRegion] *)
Definition in_region (clientRegion : RegionValue) (backend : Backend.t) : bool :=
  match clientRegion with
  | Name r => String.eqb (Backend.region backend) r
  | Inherited _ => false
  end.

(** [selectBackend(request)]: the chosen backend and its index in
    [CONFIG.backends], or [None] for [undefined]. *)
Definition selectBackend (request : Request.t) (w : World)
    : option (nat * Backend.t) :=
  let healthyBackends := HealthChecker.getHealthyBackends w in
  if (length healthyBackends =? 0)%nat then
    pair 0%nat <$> backends w !! 0%nat
  else
    let clientCountry :=
      or_default (Headers.get "cf-ipcountry" (Request.headers request)) "US" in
    let clientRegion := getRegionFromCountry clientCountry in
    let regionalBackend :=
      List.find (λ ib, in_region clientRegion ib.2) healthyBackends in
    match regionalBackend with
    | Some found => Some found
    | None => healthyBackends !! 0%nat
    end.

End SmartRouter.

(** ** Request optimizer ([class RequestOptimizer]) *)

Module RequestOptimizer.

(** [optimizeHeaders(headers)]; [new Headers(headers)] is a copy, the
    argument is left as it was. *)
Definition optimizeHeaders (cfg : Config) (headers : Headers.t) : Headers.t :=
  let optimized := headers in
  let optimized := Headers.delete "cookie" optimized in
  let optimized := Headers.delete "authorization" optimized in
  let optimized :=
    if optimization_compression cfg
    then Headers.set "accept-encoding" "gzip, deflate, br" optimized
    else optimized in
  let optimized :=
    if optimization_http2 cfg then Headers.set "upgrade" "h2" optimized
    else optimized in
  let optimized :=
    if optimization_keepAlive cfg
    then Headers.set "keep-alive" "timeout=60, max=1000"
           (Headers.set "connection" "keep-alive" optimized)
    else optimized in
  optimized.

Definition optimizeRequest (cfg : Config) (request : Request.t) : Request.t :=
  let optimizedHeaders := optimizeHeaders cfg (Request.headers request) in
  {| Request.method := Request.method request;
     Request.url := Request.url request;
     Request.pathname := Request.pathname request;
     Request.search := Request.search request;
     Request.headers := optimizedHeaders;
     Request.body := Request.body request |}.

End RequestOptimizer.

(** ** Cache manager ([class CacheManager]) *)

Module CacheManager.

Definition shouldCache (cfg : Config) (request : Request.t) : bool :=
  if existsb (λ path, String.prefix path (Request.pathname request))
             (cache_bypassPaths cfg)
  then false
  else if negb (String.eqb (Request.method request) "GET") then false
  else true.

Definition call (c : CacheCall) (w : World) : World :=
  with_cacheCalls (cacheCalls w ++ [c]) w.

(** [get(request)]; [matchThrows] tells whether [cache.match] throws. *)
Definition get (cfg : Config) (matchThrows : bool) (request : Request.t)
    (w : World) : option Response.t * World :=
  if negb (shouldCache cfg request) then (None, w)
  else
    let w := call (Match (Request.url request)) w in
    if matchThrows then (None, w)
    else
      match cache w !! Request.url request with
      | Some response => (Some response, ConnectionPool.count_hit w)
      | None => (None, ConnectionPool.count_miss w)
      end.

(** [put(request, response)]; [putThrows] tells whether [cache.put]
    throws. *)
Definition put (cfg : Config) (putThrows : bool) (request : Request.t)
    (response : Response.t) (w : World) : World :=
  if negb (shouldCache cfg request) then w
  else
    let responseToCache := response in
    let headers := Response.headers responseToCache in
    let headers :=
      Headers.set "cache-control"
        ("public, max-age=" +:+ pretty (cache_ttl cfg)) headers in
    let headers := Headers.set "x-cache-status" "HIT" headers in
    let cachedResponse := Response.with_headers headers responseToCache in
    let w := call (Put (Request.url request) cachedResponse) w in
    if putThrows then w
    else with_cache (<[Request.url request := cachedResponse]> (cache w)) w.

End CacheManager.

(** ** WebSocket sessions ([handleWebSocket]) *)

(** [!upgradeHeader || upgradeHeader !== 'websocket'] *)
Definition not_websocket (upgradeHeader : option string) : bool :=
  match upgradeHeader with
  | None => true
  | Some v => String.eqb v "" || negb (String.eqb v "websocket")
  end.

(** [handleWebSocket(request)]: the refusal, or a new socket pair whose
    server end is accepted and given a keep-alive interval. *)
Definition handleWebSocket (request : Request.t) (w : World)
    : Response.t * World :=
  let upgradeHeader := Headers.get "Upgrade" (Request.headers request) in
  if not_websocket upgradeHeader then
    (Response.make (Response.Text "Expected WebSocket") 426 [], w)
  else
    let client := length (sessions w) in
    let server := {| accepted := true; keepAlive := true |} in
    ({| Response.status := 101; Response.statusText := "";
        Response.headers := []; Response.body := Response.Empty;
        Response.webSocket := Some client |},
     with_sessions (sessions w ++ [server]) w).

(** *** The message listener

    Numbers of the messages are kept abstract: [of_Z] injects the integers
    (the values of [Date.now()]), [sub] is the [-] operator, [of_string]
    and [to_string] are the conversions between numbers and strings. *)

Class JSNumber (N : Type) := {
  of_Z : Z → N;
  nan : N;
  sub : N → N → N;
  of_string : string → N;
  to_string : N → string;
}.

Inductive Thrown :=
  | SyntaxError (message : string)
  | TypeError (message : string).

Definition message (e : Thrown) : string :=
  match e with
  | SyntaxError m => m
  | TypeError m => m
  end.

(** An evaluation that ends with a value or with an exception. *)
Inductive Completion (A : Type) :=
  | Normal (a : A)
  | Throw (e : Thrown).

Arguments Normal {A} a.
Arguments Throw {A} e.

#[global] Instance Completion_bind : MBind Completion :=
  λ A B k c,
    match c with
    | Normal a => k a
    | Throw e => Throw e
    end.

Definition null_type_error : Thrown :=
  TypeError "Cannot read properties of null (reading 'type')".

Definition primitive_type_error : Thrown :=
  TypeError "Cannot convert object to primitive value".

Section message_listener.
Context {N : Type} `{JSNumber N}.

(** Conversion of a parsed value to a string.  An array joins its
    elements with commas, [null] elements being empty.  An object has
    only data properties: an own [toString] is not callable and the
    conversion throws; otherwise the inherited one answers. *)
Fixpoint ToString (v : json N) : Completion string :=
  match v with
  | JNull => Normal "null"
  | JBool b => Normal (if b then "true" else "false")
  | JNum n => Normal (to_string n)
  | JStr s => Normal s
  | JArr items =>
      (fix join (l : list (json N)) : Completion string :=
         match l with
         | [] => Normal ""
         | e :: l' =>
             s ← match e with
                 | JNull => Normal ""
                 | _ => ToString e
                 end;
             match l' with
             | [] => Normal s
             | _ => rest ← join l'; Normal (s +:+ "," +:+ rest)
             end
         end) items
  | JObj fields =>
      match field "toString" fields with
      | Some _ => Throw primitive_type_error
      | None => Normal "[object Object]"
      end
  end.

(** Conversion of the operand of [-] to a number; [None] is
    [undefined].  The inherited [valueOf] of an array or object returns
    the object itself and an own one is not callable, so [toString]
    decides. *)
Definition ToNumber (v : option (json N)) : Completion N :=
  match v with
  | None => Normal nan
  | Some JNull => Normal (of_Z 0)
  | Some (JBool b) => Normal (of_Z (if b then 1 else 0))
  | Some (JNum n) => Normal n
  | Some (JStr s) => Normal (of_string s)
  | Some x => s ← ToString x; Normal (of_string s)
  end.

(** [data.type] and [data.timestamp]: reading a property of [null]
    throws; only an object has such properties. *)
Definition member (key : string) (data : json N)
    : Completion (option (json N)) :=
  match data with
  | JNull => Throw null_type_error
  | JObj fields => Normal (field key fields)
  | _ => Normal None
  end.

(** [data.type === 'pong'] *)
Definition is_pong (type : option (json N)) : bool :=
  match type with
  | Some (JStr s) => String.eqb s "pong"
  | _ => false
  end.

(** What [JSON.parse(event.data)] gave. *)
Inductive Parse :=
  | Parsed (data : json N)
  | Unparsable (message : string).

Definition parse (p : Parse) : Completion (json N) :=
  match p with
  | Parsed data => Normal data
  | Unparsable m => Throw (SyntaxError m)
  end.

(** The [try] block of the listener: the object handed to
    [server.send(JSON.stringify(..))], if any.  [t1] and [t2] are the two
    readings of [Date.now()]. *)
Definition respond (t1 t2 : Z) (p : Parse) : Completion (option (json N)) :=
  data ← parse p;
  type ← member "type" data;
  if is_pong type then Normal None
  else
    timestamp ← member "timestamp" data;
    number ← ToNumber timestamp;
    Normal (Some (JObj [("type", JStr "response");
                        ("data", data);
                        ("timestamp", JNum (of_Z t1));
                        ("latency", JNum (sub (of_Z t2) number))])).

(** The listener on an open socket: the envelopes it sends. *)
Definition on_message (t1 t2 : Z) (p : Parse) : list (json N) :=
  match respond t1 t2 p with
  | Normal (Some response) => [response]
  | Normal None => []
  | Throw error =>
      [JObj [("type", JStr "error"); ("error", JStr (message error))]]
  end.

End message_listener.

(** ** The request handler ([handleRequest]) *)

(** What [fetch] of the backend did. *)
Inductive Fetched :=
  | Resolved (response : Response.t) (latency : Z)
  | Rejected (message : string).

(** What the runtime does during one request. *)
Record Runtime := {
  now : Z;                 (* [Date.now()] *)
  matchThrows : bool;      (* [cache.match] throws *)
  fetched : Fetched;
  putThrows : bool;        (* [cache.put] throws *)
}.

Definition metrics_json (m : Metrics) : json Z :=
  JObj [("activeConnections", JNum (activeConnections m));
        ("totalRequests", JNum (totalRequests m));
        ("cacheHits", JNum (cacheHits m));
        ("cacheMisses", JNum (cacheMisses m))].

Definition backend_json (b : Backend.t) : json Z :=
  JObj [("url", JStr (Backend.url b));
        ("healthy", JBool (Backend.healthy b));
        ("priority", JNum (Backend.priority b))].

Definition json_headers : Headers.t := [("content-type", "application/json")].

(** The handler up to the choice of a backend: an answer, or the backend
    to forward to with its index in [CONFIG.backends]. *)
Inductive Routed :=
  | Answer (response : Response.t) (w : World)
  | Forward (index : nat) (backend : Backend.t) (w : World).

Definition route (cfg : Config) (rt : Runtime) (request : Request.t)
    (w : World) : Routed :=
  let w := ConnectionPool.count_request w in
  let pathname := Request.pathname request in
  if String.eqb pathname "/health" then
    Answer
      (Response.make
         (Response.Json
            (JObj [("status", JStr "healthy");
                   ("metrics", metrics_json (ConnectionPool.getMetrics w));
                   ("backends", JArr (backend_json <$> backends w));
                   ("timestamp", JNum (now rt))]))
         200 json_headers) w
  else if String.eqb pathname "/metrics" then
    Answer
      (Response.make
         (Response.Json
            (JObj [("metrics", metrics_json (ConnectionPool.getMetrics w));
                   ("rateLimits", JNum (Z.of_nat (size (requests w))));
                   ("timestamp", JNum (now rt))]))
         200 json_headers) w
  else if String.eqb pathname "/ws"
          || bool_decide
               (Headers.get "Upgrade" (Request.headers request) = Some "websocket")
  then
    let (response, w) := handleWebSocket request w in Answer response w
  else
    let clientId :=
      or_default (Headers.get "cf-connecting-ip" (Request.headers request))
                 "unknown" in
    let (allowed, table) :=
      RateLimiter.checkLimit (rateLimit cfg) (now rt) clientId (requests w) in
    let w := with_requests table w in
    if negb allowed then
      Answer
        (Response.make (Response.Text "Rate limit exceeded") 429
           [("retry-after", "60");
            ("x-rate-limit",
             pretty (RateLimiter.requestsPerMinute (rateLimit cfg)))]) w
    else
      let (cachedResponse, w) := CacheManager.get cfg (matchThrows rt) request w in
      match cachedResponse with
      | Some response =>
          let headers := Response.headers response in
          let headers := Headers.set "x-cache" "HIT" headers in
          let headers :=
            Headers.set "x-cache-hits" (pretty (cacheHits (metrics w))) headers in
          Answer (Response.with_headers headers response) w
      | None =>
          match SmartRouter.selectBackend request w with
          | None =>
              Answer
                (Response.make (Response.Text "No healthy backends available")
                   503 []) w
          | Some (index, backend) => Forward index backend w
          end
      end.

(** The world a routing ends in. *)
Definition routed_world (r : Routed) : World :=
  match r with
  | Answer _ w => w
  | Forward _ _ w => w
  end.

(** The rest of the handler: one [fetch] inside [try], and the [catch].
    The url fetched is recorded by the arguments of [new URL]; [target]
    tells where it points. *)
Definition forward (cfg : Config) (rt : Runtime) (request : Request.t)
    (index : nat) (backend : Backend.t) (w : World) : Response.t * World :=
  let optimizedRequest := RequestOptimizer.optimizeRequest cfg request in
  let w :=
    with_fetches
      (fetches w ++
         [{| fetch_backend := Backend.url backend;
             fetch_path := Request.pathname request +:+ Request.search request;
             fetch_method := Request.method optimizedRequest;
             fetch_headers := Request.headers optimizedRequest |}]) w in
  match fetched rt with
  | Resolved response latency =>
      let responseToReturn := response in
      let w := CacheManager.put cfg (putThrows rt) request response w in
      let headers := Response.headers responseToReturn in
      let headers := Headers.set "x-cache" "MISS" headers in
      let headers := Headers.set "x-backend" (Backend.url backend) headers in
      let headers := Headers.set "x-latency" (pretty latency) headers in
      let headers := Headers.set "x-region" (Backend.region backend) headers in
      let headers := Headers.set "x-powered-by" "Advanced-Ping-Booster" headers in
      (Response.with_headers headers responseToReturn, w)
  | Rejected error_message =>
      let w :=
        with_backends (alter (Backend.set_healthy false) index (backends w)) w in
      (Response.make
         (Response.Json
            (JObj [("error", JStr "Backend error");
                   ("message", JStr error_message);
                   ("backend", JStr (Backend.url backend))]))
         502 json_headers, w)
  end.

Definition handleRequest (cfg : Config) (rt : Runtime) (request : Request.t)
    (w : World) : Response.t * World :=
  match route cfg rt request w with
  | Answer response w => (response, w)
  | Forward index backend w => forward cfg rt request index backend w
  end.

(** ** The scheduled handler ([handleScheduled]) *)

Definition handleScheduled (cfg : Config) (probe : nat → HealthChecker.Probe)
    (now : Z) (w : World) : World :=
  let w := HealthChecker.updateHealthStatus probe w in
  with_requests (RateLimiter.cleanup (rateLimit cfg) now (requests w)) w.

(** ** Operations of the worker *)

Inductive Operation :=
  | Request (rt : Runtime) (request : Request.t)
  | Scheduled (probe : nat → HealthChecker.Probe) (now : Z)
  | SetConnection (key connection : string)
  | RemoveConnection (key : string).

Definition perform (cfg : Config) (op : Operation) (w : World) : World :=
  match op with
  | Request rt request => (handleRequest cfg rt request w).2
  | Scheduled probe now => handleScheduled cfg probe now w
  | SetConnection key connection => ConnectionPool.setConnection key connection w
  | RemoveConnection key => ConnectionPool.removeConnection key w
  end.

(** ** The exported handlers ([export default])

    The runtime enters the worker through [fetch] and [scheduled] only;
    the methods of the connection pool are called by neither. *)

Inductive Event :=
  | Inbound (rt : Runtime) (request : Request.t)
  | Tick (probe : nat → HealthChecker.Probe) (now : Z).

Definition dispatch (cfg : Config) (event : Event) (w : World) : World :=
  match event with
  | Inbound rt request => (handleRequest cfg rt request w).2
  | Tick probe now => handleScheduled cfg probe now w
  end.

Definition run (cfg : Config) (events : list Event) (w : World) : World :=
  foldl (λ w event, dispatch cfg event w) w events.

Definition is_inbound (event : Event) : bool :=
  match event with
  | Inbound _ _ => true
  | Tick _ _ => false
  end.

(** The number of inbound requests among the events. *)
Definition inbound (events : list Event) : Z :=
  Z.of_nat (length (List.filter is_inbound events)).

(** The same request again and again, the runtime differing each time. *)
Definition repeated (cfg : Config) (request : Request.t) (rts : list Runtime)
    (w : World) : World :=
  foldl (λ w rt, (handleRequest cfg rt request w).2) w rts.

(** ** Orders and choices used to state properties *)

(** The order of the array of healthy backends: a smaller priority first,
    and among equal priorities the earlier entry of [CONFIG.backends]. *)
Definition precedes (x y : nat * Backend.t) : Prop :=
  Backend.priority x.2 < Backend.priority y.2 ∨
  (Backend.priority x.2 = Backend.priority y.2 ∧ (x.1 < y.1)%nat).

(** What [selectBackend] returns when no healthy backend is in the
    client's region: the best healthy backend, or the first entry of
    [CONFIG.backends]. *)
Definition by_priority (w : World) : option (nat * Backend.t) :=
  match HealthChecker.getHealthyBackends w with
  | [] => pair 0%nat <$> backends w !! 0%nat
  | best :: _ => Some best
  end.

(** ** Example data *)

(** A client at 0, 5, 10 and 60001 ms under a limit of 2 per 60000 ms. *)
Definition two_per_minute : RateLimiter.Settings :=
  {| RateLimiter.enabled := true;
     RateLimiter.requestsPerMinute := 2;
     RateLimiter.windowMs := 60000 |}.

(** The [CONFIG] of the source. *)
Definition shipped : Config :=
  {| websocket_keepAliveInterval := 30000;
     cache_ttl := 300;
     cache_bypassPaths := ["/api/realtime"; "/ws"];
     rateLimit := {| RateLimiter.enabled := true;
                     RateLimiter.requestsPerMinute := 100;
                     RateLimiter.windowMs := 60000 |};
     optimization_compression := true;
     optimization_http2 := true;
     optimization_keepAlive := true;
     healthCheck_timeout := 5000 |}.

(** Two healthy backends, the one of the better priority in [us-east]. *)
Definition backend_A : Backend.t :=
  {| Backend.url := "https://a.example.com"; Backend.priority := 1;
     Backend.region := "us-east"; Backend.healthy := true |}.

Definition backend_B : Backend.t :=
  {| Backend.url := "https://b.example.com"; Backend.priority := 2;
     Backend.region := "eu-west"; Backend.healthy := true |}.

Definition no_metrics : Metrics :=
  {| activeConnections := 0; totalRequests := 0; cacheHits := 0;
     cacheMisses := 0 |}.

(** The worker as it starts, with the given backends. *)
Definition started (bs : list Backend.t) : World :=
  {| backends := bs; connections := ∅; metrics := no_metrics; requests := ∅;
     healthStatus := ∅; cache := ∅; cacheCalls := []; fetches := [];
     sessions := [] |}.

Definition get_from (country : string) (path : string) : Request.t :=
  {| Request.method := "GET";
     Request.url := "https://edge.example.com" +:+ path;
     Request.pathname := path; Request.search := "";
     Request.headers := [("cf-ipcountry", country);
                         ("cf-connecting-ip", "198.51.100.7")];
     Request.body := None |}.

(** A request at time [t] whose backend refuses the connection. *)
Definition refused (t : Z) : Runtime :=
  {| now := t; matchThrows := false;
     fetched := Rejected "connection refused"; putThrows := false |}.

(** A request at time [t] whose backend answers 200 after 12 ms. *)
Definition answered (t : Z) : Runtime :=
  {| now := t; matchThrows := false;
     fetched := Resolved (Response.make (Response.Stream "ok") 200 []) 12;
     putThrows := false |}.


(** A number type for examples: the integers and NaN, where the readings
    of [Date.now()] live.  A string of decimal digits reads as its value,
    the empty string as 0, any other string as NaN. *)
Fixpoint digits (acc : Z) (s : string) : option Z :=
  match s with
  | EmptyString => Some acc
  | String c s' =>
      let n := Z.of_N (N_of_ascii c) in
      if (48 <=? n) && (n <=? 57) then digits (10 * acc + (n - 48)) s'
      else None
  end.

#[global] Instance integers_and_nan : JSNumber (option Z) := {|
  of_Z := Some;
  nan := None;
  sub := λ a b, match a, b with
                | Some x, Some y => Some (x - y)
                | _, _ => None
                end;
  of_string := digits 0;
  to_string := λ n, match n with
                    | Some z => pretty z
                    | None => "NaN"
                    end;
|}.

(** A message whose timestamp is an object with an own [toString]. *)
Definition odd_timestamp : json (option Z) :=
  JObj [("type", JStr "message");
        ("timestamp", JObj [("toString", JNum (Some 0))])].

(** A message sent at 990. *)
Definition stamped : json (option Z) :=
  JObj [("type", JStr "message"); ("data", JStr "hello");
        ("timestamp", JNum (Some 990))].

(** [shipped] with a limit of 2 requests per minute. *)
Definition strict : Config :=
  {| websocket_keepAliveInterval := websocket_keepAliveInterval shipped;
     cache_ttl := cache_ttl shipped;
     cache_bypassPaths := cache_bypassPaths shipped;
     rateLimit := two_per_minute;
     optimization_compression := optimization_compression shipped;
     optimization_http2 := optimization_http2 shipped;
     optimization_keepAlive := optimization_keepAlive shipped;
     healthCheck_timeout := healthCheck_timeout shipped |}.

(** The worker after two requests of 198.51.100.7, at 0 and 5 ms. *)
Definition busy : World :=
  with_requests {["198.51.100.7" := [0; 5]]} (started [backend_A; backend_B]).

(** The identifier [handleRequest] gives the client of a request. *)
Definition clientId_of (request : Request.t) : string :=
  or_default (Headers.get "cf-connecting-ip" (Request.headers request))
             "unknown".

(** The request is none of those answered before rate limiting: not for
    ["/health"], ["/metrics"] or ["/ws"], and not an upgrade to
    WebSocket. *)
Definition proxied (request : Request.t) : Prop :=
  Request.pathname request ≠ "/health" ∧
  Request.pathname request ≠ "/metrics" ∧
  Request.pathname request ≠ "/ws" ∧
  Headers.get "Upgrade" (Request.headers request) ≠ Some "websocket".

(** ** Properties of the rate limiter *)

Section rate_limiter_facts.
Import RateLimiter.
Implicit Types (table : gmap string (list Z)) (cfg : Settings).

Lemma newer_than_spec windowStart requests t :
  t ∈ newer_than windowStart requests ↔ t ∈ requests ∧ windowStart < t.
Proof. unfold newer_than. rewrite list_elem_of_filter. tauto. Qed.

Lemma newer_than_nil_iff windowStart requests :
  newer_than windowStart requests = [] ↔
  ∀ t, t ∈ requests → ¬ windowStart < t.
Proof.
  split.
  - intros Hnil t Hin Hlt.
    assert (t ∈ newer_than windowStart requests) as Hmem
      by (apply newer_than_spec; done).
    rewrite Hnil in Hmem. by apply not_elem_of_nil in Hmem.
  - intros Hall. destruct (newer_than windowStart requests) as [|t l] eqn:E.
    + done.
    + assert (t ∈ newer_than windowStart requests) as Hmem
        by (rewrite E; left).
      apply newer_than_spec in Hmem as [Hin Hlt]. by destruct (Hall t Hin).
Qed.

(** The loop of [cleanup] does not touch a client it does not visit. *)
Lemma cleanup_loop_other cfg now (entries : list (string * list Z)) table c :
  c ∉ entries.*1 →
  foldl (cleanup_entry cfg now) table entries !! c = table !! c.
Proof.
  revert table. induction entries as [|[k l] entries IH]; intros table Hc.
  - done.
  - rewrite fmap_cons in Hc. apply not_elem_of_cons in Hc as [Hne Hc].
    simpl in Hne. simpl foldl. rewrite IH by done.
    unfold cleanup_entry. simpl. destruct (length _ =? 0)%nat.
    + by rewrite lookup_delete_ne.
    + by rewrite lookup_insert_ne.
Qed.

(** A visited client is left with its pruned list, when no client is
    visited twice. *)
Lemma cleanup_loop_visited cfg now (entries : list (string * list Z)) table c l :
  NoDup entries.*1 → (c, l) ∈ entries →
  foldl (cleanup_entry cfg now) table entries !! c = pruned_entry cfg now l.
Proof.
  revert table. induction entries as [|[k l'] entries IH]; intros table Hnd Hin.
  - by apply not_elem_of_nil in Hin.
  - rewrite fmap_cons in Hnd. apply NoDup_cons in Hnd as [Hk Hnd].
    simpl in Hk. simpl foldl. apply elem_of_cons in Hin as [Heq|Hin].
    + injection Heq as -> ->. rewrite cleanup_loop_other by done.
      unfold cleanup_entry, pruned_entry. simpl. destruct (length _ =? 0)%nat.
      * by rewrite lookup_delete_eq.
      * by rewrite lookup_insert_eq.
    + by apply IH.
Qed.

Lemma cleanup_lookup cfg now table c :
  cleanup cfg now table !! c = table !! c ≫= pruned_entry cfg now.
Proof.
  unfold cleanup. destruct (table !! c) as [l|] eqn:Hc; simpl.
  - apply cleanup_loop_visited; [apply NoDup_fst_map_to_list|].
    by apply elem_of_map_to_list.
  - rewrite cleanup_loop_other; [done|].
    intros Hin. apply list_elem_of_fmap in Hin as ([k l] & -> & Hin).
    apply elem_of_map_to_list in Hin. simpl in Hc. congruence.
Qed.

End rate_limiter_facts.

Section admission.
Import RateLimiter.

Lemma checkLimit_known cfg now clientId (table : gmap string (list Z)) l kept :
  enabled cfg = true →
  default [] (table !! clientId) = l →
  newer_than (now - windowMs cfg) l = kept →
  checkLimit cfg now clientId table =
    if Z.of_nat (length kept) >=? requestsPerMinute cfg then (false, table)
    else (true, <[clientId := kept ++ [now]]> table).
Proof. intros Hen <- <-. unfold checkLimit. by rewrite Hen. Qed.

Lemma admissions_two_per_minute clientId :
  (admissions two_per_minute clientId [0; 5; 10; 60001] ∅).1
    = [true; true; false; true].
Proof.
  unfold admissions. cbn [foldl fst snd].
  rewrite (checkLimit_known two_per_minute 0 clientId ∅ [] [])
    by (try rewrite lookup_empty; reflexivity).
  change (Z.of_nat (length []) >=? requestsPerMinute two_per_minute) with false.
  cbn [fst snd app].
  rewrite (checkLimit_known two_per_minute 5 clientId _ [0] [0])
    by (try rewrite lookup_insert_eq; reflexivity).
  change (Z.of_nat (length [0]) >=? requestsPerMinute two_per_minute) with false.
  cbn [fst snd app].
  rewrite (checkLimit_known two_per_minute 10 clientId _ [0; 5] [0; 5])
    by (try rewrite lookup_insert_eq; reflexivity).
  change (Z.of_nat (length [0; 5]) >=? requestsPerMinute two_per_minute) with true.
  cbn [fst snd app].
  rewrite (checkLimit_known two_per_minute 60001 clientId _ [0; 5] [5])
    by (try rewrite lookup_insert_eq; reflexivity).
  reflexivity.
Qed.

(** C1. With rate limiting enabled, [checkLimit(clientId)] at time [now]
    returns [true] exactly when fewer than [requestsPerMinute] of the
    client's stored timestamps are strictly newer than [now - windowMs];
    it then stores those timestamps followed by [now]; otherwise it
    returns [false] and leaves the table as it was.  Under a limit of 2
    per 60000 ms, requests at 0 and 5 are admitted, the one at 10 is
    denied and the one at 60001 is admitted. *)
Theorem checkLimit_admits_below_limit :
  (∀ cfg now clientId (table : gmap string (list Z)),
     enabled cfg = true →
     let inWindow :=
       newer_than (now - windowMs cfg) (default [] (table !! clientId)) in
     ((checkLimit cfg now clientId table).1 = true ↔
        Z.of_nat (length inWindow) < requestsPerMinute cfg) ∧
     (Z.of_nat (length inWindow) < requestsPerMinute cfg →
        (checkLimit cfg now clientId table).2
          = <[clientId := inWindow ++ [now]]> table) ∧
     (¬ Z.of_nat (length inWindow) < requestsPerMinute cfg →
        checkLimit cfg now clientId table = (false, table))) ∧
  (∀ clientId,
     (admissions two_per_minute clientId [0; 5; 10; 60001] ∅).1
       = [true; true; false; true]).
Proof.
  split; [|apply admissions_two_per_minute].
  intros cfg now clientId table Hen inWindow. unfold checkLimit.
  rewrite Hen. simpl. fold inWindow.
  destruct (Z.geb_spec (Z.of_nat (length inWindow)) (requestsPerMinute cfg))
    as [Hge|Hlt]; simpl.
  - split; [|split]; [split; [done|lia]|lia|done].
  - split; [|split]; [split; [lia|done]|done|lia].
Qed.

Lemma checkLimit_admits_below_limit_witness :
  (checkLimit two_per_minute 10 "10.0.0.1" {["10.0.0.1" := [0; 5]]}).1 = true
  ↔ Z.of_nat (length (newer_than (10 - 60000) [0; 5])) < 2.
Proof.
  pose proof (proj1 checkLimit_admits_below_limit two_per_minute 10
                "10.0.0.1" {["10.0.0.1" := [0; 5]]} eq_refl) as Hw.
  rewrite lookup_singleton_eq in Hw. exact (proj1 Hw).
Defined.

(** C8. After [cleanup()] at time [now] a client is in the table exactly
    when one of its recorded timestamps was strictly newer than
    [now - windowMs], and what is kept for it is the list of those
    timestamps. *)
Theorem cleanup_keeps_clients_in_window cfg now
    (table : gmap string (list Z)) clientId :
  (is_Some (cleanup cfg now table !! clientId) ↔
     ∃ l t, table !! clientId = Some l ∧ t ∈ l ∧ now - windowMs cfg < t) ∧
  (∀ kept, cleanup cfg now table !! clientId = Some kept →
     (∃ l, table !! clientId = Some l ∧
           kept = newer_than (now - windowMs cfg) l) ∧
     (∀ t, t ∈ kept → now - windowMs cfg < t)).
Proof.
  rewrite cleanup_lookup. unfold pruned_entry.
  destruct (table !! clientId) as [l|] eqn:Hl; simpl.
  - destruct (newer_than (now - windowMs cfg) l) as [|t v] eqn:Hv; simpl.
    + split.
      * split; [by intros [? ?]|]. intros (l' & t & Heq & Hin & Hlt).
        injection Heq as <-. exfalso.
        apply (proj1 (newer_than_nil_iff _ _) Hv t Hin Hlt).
      * intros kept Hk. discriminate.
    + split.
      * split; [|by eauto]. intros _. exists l, t. split; [done|].
        apply newer_than_spec. rewrite Hv. left.
      * intros kept Hk. injection Hk as <-. split; [by exists l|].
        intros t' Hin. rewrite <- Hv in Hin.
        by apply newer_than_spec in Hin as [_ ?].
  - split.
    + split; [by intros [? ?]|]. by intros (l' & t & Heq & _).
    + intros kept Hk. discriminate.
Qed.

End admission.

(** ** Properties of the router *)

Section routing.
Import HealthChecker SmartRouter.

Lemma elem_of_insert_by_priority x y l :
  y ∈ insert_by_priority x l ↔ y = x ∨ y ∈ l.
Proof.
  induction l as [|z l IH]; simpl.
  - rewrite list_elem_of_singleton. split; [by left|].
    intros [?|Hn]; [done|by apply not_elem_of_nil in Hn].
  - destruct (Backend.priority x.2 <=? Backend.priority z.2).
    + by rewrite elem_of_cons.
    + rewrite !elem_of_cons, IH. tauto.
Qed.

Lemma elem_of_sort_by_priority y l : y ∈ sort_by_priority l ↔ y ∈ l.
Proof.
  induction l as [|x l IH]; simpl; [done|].
  by rewrite elem_of_insert_by_priority, IH, elem_of_cons.
Qed.

(** The healthy backends are the healthy entries of [CONFIG.backends]. *)
Lemma elem_of_getHealthyBackends i b w :
  (i, b) ∈ getHealthyBackends w ↔
  backends w !! i = Some b ∧ Backend.healthy b = true.
Proof.
  unfold getHealthyBackends.
  rewrite elem_of_sort_by_priority, list_elem_of_In, filter_In.
  rewrite <- list_elem_of_In, elem_of_lookup_imap. simpl. split.
  - intros [(j & x & Heq & Hx) Hh]. by injection Heq as -> ->.
  - intros [Hb Hh]. split; [by exists i, b|done].
Qed.

Lemma getHealthyBackends_nil w :
  (∀ b, b ∈ backends w → Backend.healthy b = false) →
  getHealthyBackends w = [].
Proof.
  intros Hall. destruct (getHealthyBackends w) as [|[i b] l] eqn:E; [done|].
  assert ((i, b) ∈ getHealthyBackends w) as Hin by (rewrite E; left).
  apply elem_of_getHealthyBackends in Hin as [Hb Hh].
  apply list_elem_of_lookup_2 in Hb. rewrite (Hall b Hb) in Hh. discriminate.
Qed.

(** The chosen backend is the entry of [CONFIG.backends] at its index. *)
Lemma selectBackend_lookup request w i b :
  selectBackend request w = Some (i, b) → backends w !! i = Some b.
Proof.
  unfold selectBackend.
  destruct (length (getHealthyBackends w) =? 0)%nat.
  - destruct (backends w !! 0%nat) as [b0|] eqn:H0; simpl; [|done].
    by intros [= <- <-].
  - destruct (find _ _) as [[j c]|] eqn:Hf.
    + intros [= -> ->]. apply find_some in Hf as [Hin _].
      apply list_elem_of_In in Hin.
      by apply elem_of_getHealthyBackends in Hin as [? _].
    + intros Hhd. apply list_elem_of_lookup_2 in Hhd.
      by apply elem_of_getHealthyBackends in Hhd as [? _].
Qed.

Lemma selectBackend_GB_picks_B :
  selectBackend (get_from "GB" "/api/data") (started [backend_A; backend_B])
    = Some (1%nat, backend_B).
Proof. reflexivity. Qed.

(** C3. When the request's country resolves to region [R] and some
    healthy backend has region [R], [selectBackend] returns a healthy
    backend of region [R], whatever the priorities of the healthy
    backends of other regions.  With healthy A in us-east (priority 1)
    and healthy B in eu-west (priority 2), a request from GB, which
    resolves to eu-west, gets B. *)
Theorem selectBackend_prefers_client_region :
  (∀ request w R,
     getRegionFromCountry
       (or_default (Headers.get "cf-ipcountry" (Request.headers request)) "US")
       = Name R →
     (∃ b, b ∈ backends w ∧ Backend.healthy b = true ∧ Backend.region b = R) →
     ∃ i b, selectBackend request w = Some (i, b) ∧
            backends w !! i = Some b ∧
            Backend.healthy b = true ∧ Backend.region b = R) ∧
  (getRegionFromCountry "GB" = Name "eu-west" ∧
   selectBackend (get_from "GB" "/api/data") (started [backend_A; backend_B])
     = Some (1%nat, backend_B)).
Proof.
  split; [|split; reflexivity].
  intros request w R HR (b & Hb & Hh & Hreg).
  apply list_elem_of_lookup_1 in Hb as [i Hi].
  assert ((i, b) ∈ getHealthyBackends w) as Hin
    by (by apply elem_of_getHealthyBackends).
  unfold selectBackend. rewrite HR.
  destruct (getHealthyBackends w) as [|hb l] eqn:E.
  { by apply not_elem_of_nil in Hin. }
  simpl length. simpl Nat.eqb. cbv iota.
  destruct (find (λ ib, in_region (Name R) ib.2) (hb :: l)) as [[j c]|] eqn:Hf.
  - apply find_some in Hf as [Hjc Hc]. simpl in Hc.
    apply String.eqb_eq in Hc. apply list_elem_of_In in Hjc.
    rewrite <- E in Hjc. apply elem_of_getHealthyBackends in Hjc as [? ?].
    by exists j, c.
  - exfalso. apply list_elem_of_In in Hin.
    pose proof (find_none _ _ Hf _ Hin) as Hno. simpl in Hno.
    rewrite Hreg, String.eqb_refl in Hno. discriminate.
Qed.

Lemma selectBackend_prefers_client_region_witness :
  ∃ i b, selectBackend (get_from "GB" "/api/data")
           (started [backend_A; backend_B]) = Some (i, b) ∧
         backends (started [backend_A; backend_B]) !! i = Some b ∧
         Backend.healthy b = true ∧ Backend.region b = "eu-west".
Proof.
  apply (proj1 selectBackend_prefers_client_region
           (get_from "GB" "/api/data") (started [backend_A; backend_B])
           "eu-west").
  - reflexivity.
  - exists backend_B. split; [|split; reflexivity].
    right. left.
Defined.

(** C7. When no backend is healthy, [selectBackend] returns the first
    entry of [CONFIG.backends], whatever the request: asking again in the
    same state gives the same backend. *)
Theorem selectBackend_degraded_first request w :
  (∀ b, b ∈ backends w → Backend.healthy b = false) →
  selectBackend request w = pair 0%nat <$> head (backends w) ∧
  (∀ request', selectBackend request' w = selectBackend request w).
Proof.
  intros Hall. unfold selectBackend.
  rewrite (getHealthyBackends_nil w Hall). simpl.
  split; [|done]. by destruct (backends w).
Qed.

Lemma selectBackend_degraded_first_witness :
  let down := Backend.set_healthy false in
  selectBackend (get_from "GB" "/api/data")
    (started [down backend_A; down backend_B])
    = Some (0%nat, down backend_A).
Proof.
  intros down.
  refine (proj1 (selectBackend_degraded_first (get_from "GB" "/api/data")
                   (started [down backend_A; down backend_B]) _)).
  intros b Hb. simpl in Hb.
  apply elem_of_cons in Hb as [->|Hb]; [reflexivity|].
  apply elem_of_cons in Hb as [->|Hb]; [reflexivity|].
  by apply not_elem_of_nil in Hb.
Defined.

End routing.

(** ** Properties of header lists and of the optimizer *)

Section headers_facts.
Import Headers.

Lemma named_spec name e : named name e = true ↔ lower e.1 = lower name.
Proof. unfold named, same_name. apply String.eqb_eq. Qed.

Lemma has_false name (h : Headers.t) :
  has name h = false ↔ ∀ e, e ∈ h → lower e.1 ≠ lower name.
Proof.
  unfold has. split.
  - intros Hno e He Heq. apply list_elem_of_In in He.
    assert (existsb (named name) h = true) as Hyes
      by (apply existsb_exists; exists e; split; [done|by apply named_spec]).
    congruence.
  - intros Hall. destruct (existsb (named name) h) eqn:E; [|done].
    apply existsb_exists in E as (e & He & Hn). apply list_elem_of_In in He.
    apply named_spec in Hn. by destruct (Hall e He).
Qed.

Lemma elem_of_delete name (h : Headers.t) e :
  e ∈ delete name h ↔ e ∈ h ∧ lower e.1 ≠ lower name.
Proof.
  unfold delete. rewrite list_elem_of_In, filter_In, <- list_elem_of_In.
  rewrite negb_true_iff, <- not_true_iff_false, named_spec. done.
Qed.

(** [set] adds no name but its own, in lower case. *)
Lemma elem_of_set name value (h : Headers.t) e :
  e ∈ set name value h → lower e.1 = lower name ∨ e ∈ h.
Proof.
  induction h as [|x h IH]; simpl.
  - intros He. apply list_elem_of_singleton in He as ->. left. simpl.
    clear. induction name as [|c name IH]; simpl; [done|]. f_equal; [|done].
    unfold lower_ascii.
    destruct ((65 <=? N_of_ascii c)%N && (N_of_ascii c <=? 90)%N) eqn:E.
    + apply andb_true_iff in E as [Hlo Hhi].
      apply N.leb_le in Hlo. apply N.leb_le in Hhi.
      rewrite N_ascii_embedding by lia.
      destruct (N.leb_spec 65 (N_of_ascii c + 32)),
               (N.leb_spec (N_of_ascii c + 32) 90); simpl; (done || lia).
    + by rewrite E.
  - destruct (named name x) eqn:En.
    + intros He. apply elem_of_cons in He as [->|He].
      * left. simpl. by apply named_spec.
      * right. right. by apply elem_of_delete in He as [? _].
    + intros He. apply elem_of_cons in He as [->|He].
      * right. left.
      * destruct (IH He) as [?|?]; [by left|right; by right].
Qed.

Lemma get_None name (h : Headers.t) : has name h = false → get name h = None.
Proof.
  intros Hno. unfold get.
  destruct (List.filter (named name) h) as [|e es] eqn:E; [done|].
  assert (In e (List.filter (named name) h)) as Hin by (rewrite E; left; done).
  apply filter_In in Hin as [Hin Hn]. apply list_elem_of_In in Hin.
  apply named_spec in Hn. by destruct (proj1 (has_false name h) Hno e Hin).
Qed.

End headers_facts.

Section optimizer.
Import RequestOptimizer.

(** No entry of the optimized headers is named [name], when [name] is
    deleted and is none of the names that are set. *)
Lemma optimizeHeaders_without cfg headers name e :
  (lower name = lower "cookie" ∨ lower name = lower "authorization") →
  e ∈ optimizeHeaders cfg headers → lower e.1 ≠ lower name.
Proof.
  intros Hname. unfold optimizeHeaders.
  set (stripped := Headers.delete "authorization" (Headers.delete "cookie" headers)).
  assert (∀ x, x ∈ stripped → lower x.1 ≠ lower name) as Hstripped.
  { intros x Hx. unfold stripped in Hx.
    apply elem_of_delete in Hx as [Hx Hauth].
    apply elem_of_delete in Hx as [_ Hcookie].
    destruct Hname as [-> | ->]; done. }
  assert (∀ n v (h : Headers.t),
            lower n ≠ lower name →
            (∀ x, x ∈ h → lower x.1 ≠ lower name) →
            ∀ x, x ∈ Headers.set n v h → lower x.1 ≠ lower name) as Hset.
  { intros n v h Hn Hh x Hx. destruct (elem_of_set _ _ _ _ Hx) as [Heq|Hin].
    - congruence.
    - by apply Hh. }
  assert (lower "accept-encoding" ≠ lower name ∧ lower "upgrade" ≠ lower name ∧
          lower "connection" ≠ lower name ∧ lower "keep-alive" ≠ lower name)
    as (Hae & Hup & Hco & Hka).
  { destruct Hname as [-> | ->]; repeat split; discriminate. }
  revert e. repeat case_match; eauto.
Qed.

(** C6. The headers returned by [optimizeHeaders] have no [cookie] and no
    [authorization] entry, in any spelling of the names, whatever the
    input; the function is total, and its result depends on nothing but
    its argument and the three optimization flags of the configuration. *)
Theorem optimizeHeaders_strips_credentials cfg headers :
  Headers.has "cookie" (optimizeHeaders cfg headers) = false ∧
  Headers.has "authorization" (optimizeHeaders cfg headers) = false ∧
  Headers.get "cookie" (optimizeHeaders cfg headers) = None ∧
  Headers.get "authorization" (optimizeHeaders cfg headers) = None ∧
  (∀ e, e ∈ optimizeHeaders cfg headers →
        lower e.1 ≠ "cookie" ∧ lower e.1 ≠ "authorization") ∧
  (∀ cfg',
     optimization_compression cfg' = optimization_compression cfg →
     optimization_http2 cfg' = optimization_http2 cfg →
     optimization_keepAlive cfg' = optimization_keepAlive cfg →
     optimizeHeaders cfg' headers = optimizeHeaders cfg headers).
Proof.
  assert (Headers.has "cookie" (optimizeHeaders cfg headers) = false) as Hc.
  { apply has_false. intros e He.
    apply (optimizeHeaders_without cfg headers "cookie" e); [by left|done]. }
  assert (Headers.has "authorization" (optimizeHeaders cfg headers) = false) as Ha.
  { apply has_false. intros e He.
    apply (optimizeHeaders_without cfg headers "authorization" e); [by right|done]. }
  split; [done|]. split; [done|].
  split; [by apply get_None|]. split; [by apply get_None|]. split.
  - intros e He. split.
    + apply (proj1 (has_false _ _) Hc e He).
    + apply (proj1 (has_false _ _) Ha e He).
  - intros cfg' H1 H2 H3. unfold optimizeHeaders. by rewrite H1, H2, H3.
Qed.

End optimizer.

(** ** Properties of the request handler *)

Ltac world_simpl :=
  cbn [backends connections metrics requests healthStatus cache cacheCalls
       fetches sessions with_backends with_connections with_metrics
       with_requests with_healthStatus with_cache with_cacheCalls with_fetches
       with_sessions fst snd activeConnections totalRequests cacheHits
       cacheMisses ConnectionPool.count_request ConnectionPool.count_hit
       ConnectionPool.count_miss ConnectionPool.refresh_size
       ConnectionPool.with_activeConnections ConnectionPool.getMetrics
       CacheManager.call HealthChecker.updateHealthStatus] in *.

Section handler.

(** Up to the choice of a backend the handler leaves the registry, the
    fetch log and the sockets alone, and the backend it forwards to is the
    registry's entry at the index it gives. *)
Lemma route_forward cfg rt request w index backend w1 :
  route cfg rt request w = Forward index backend w1 →
  backends w1 = backends w ∧ fetches w1 = fetches w ∧
  sessions w1 = sessions w ∧ backends w !! index = Some backend.
Proof.
  intros Hr. unfold route, handleWebSocket, CacheManager.get in Hr.
  repeat case_match; simplify_eq; world_simpl.
  all: match goal with
       | Hs : SmartRouter.selectBackend _ _ = Some _ |- _ =>
           apply selectBackend_lookup in Hs; world_simpl
       end.
  all: done.
Qed.

Lemma not_websocket_true upgradeHeader :
  upgradeHeader ≠ Some "websocket" → not_websocket upgradeHeader = true.
Proof.
  intros Hne. destruct upgradeHeader as [v|]; simpl; [|done].
  destruct (String.eqb_spec v "websocket") as [->|_]; [done|].
  by rewrite orb_true_r.
Qed.

(** C10. A request for ["/ws"] whose [Upgrade] header is absent or
    different from ["websocket"] is answered with status 426 and the body
    ["Expected WebSocket"]; no socket pair is made and no keep-alive
    interval is started. *)
Theorem ws_without_upgrade_refused cfg rt request w :
  Request.pathname request = "/ws" →
  Headers.get "Upgrade" (Request.headers request) ≠ Some "websocket" →
  (handleRequest cfg rt request w).1
    = Response.make (Response.Text "Expected WebSocket") 426 [] ∧
  Response.webSocket (handleRequest cfg rt request w).1 = None ∧
  sessions (handleRequest cfg rt request w).2 = sessions w.
Proof.
  intros Hpath Hup. unfold handleRequest, route, handleWebSocket.
  rewrite Hpath, (not_websocket_true _ Hup).
  change (String.eqb "/ws" "/health") with false.
  change (String.eqb "/ws" "/metrics") with false.
  change (String.eqb "/ws" "/ws") with true.
  cbn [orb]. world_simpl. done.
Qed.

Lemma ws_without_upgrade_refused_witness :
  (handleRequest shipped (answered 1000) (get_from "US" "/ws")
     (started [backend_A; backend_B])).1
    = Response.make (Response.Text "Expected WebSocket") 426 [] ∧
  Response.webSocket
    (handleRequest shipped (answered 1000) (get_from "US" "/ws")
       (started [backend_A; backend_B])).1 = None ∧
  sessions (handleRequest shipped (answered 1000) (get_from "US" "/ws")
              (started [backend_A; backend_B])).2
    = sessions (started [backend_A; backend_B]).
Proof.
  apply (ws_without_upgrade_refused shipped (answered 1000)
           (get_from "US" "/ws") (started [backend_A; backend_B])).
  - reflexivity.
  - discriminate.
Defined.



Lemma shouldCache_false cfg request :
  CacheManager.shouldCache cfg request = false ↔
  Request.method request ≠ "GET" ∨
  ∃ path, path ∈ cache_bypassPaths cfg ∧
          String.prefix path (Request.pathname request) = true.
Proof.
  unfold CacheManager.shouldCache.
  destruct (existsb _ (cache_bypassPaths cfg)) eqn:Hex.
  - split; [|done]. intros _. right.
    apply existsb_exists in Hex as (path & Hin & Hp).
    exists path. by rewrite list_elem_of_In.
  - destruct (String.eqb_spec (Request.method request) "GET") as [Hm|Hm]; simpl.
    + split; [done|]. intros [?|(path & Hin & Hp)]; [done|].
      assert (existsb (λ path, String.prefix path (Request.pathname request))
                (cache_bypassPaths cfg) = true) as Hyes.
      { apply existsb_exists. exists path. by rewrite <- list_elem_of_In. }
      congruence.
    + split; [by left|done].
Qed.

(** One request that [shouldCache] refuses makes no call to the edge
    cache and leaves its content alone. *)
Lemma handleRequest_uncached cfg rt request w :
  CacheManager.shouldCache cfg request = false →
  cache (handleRequest cfg rt request w).2 = cache w ∧
  cacheCalls (handleRequest cfg rt request w).2 = cacheCalls w.
Proof.
  intros Hsc.
  unfold handleRequest, route, forward, handleWebSocket, CacheManager.get,
    CacheManager.put.
  rewrite Hsc. cbn [negb].
  repeat case_match; simplify_eq; world_simpl; done.
Qed.

(** C4. [shouldCache(request)] is [false] exactly when the method is not
    GET or the path starts with one of the bypass prefixes.  A request to
    such a path, repeated any number of times, makes no call to the edge
    cache, neither [match] nor [put], and leaves its content as it was. *)
Theorem bypassed_path_never_cached cfg :
  (∀ request,
     CacheManager.shouldCache cfg request = false ↔
     Request.method request ≠ "GET" ∨
     ∃ path, path ∈ cache_bypassPaths cfg ∧
             String.prefix path (Request.pathname request) = true) ∧
  (∀ request rts w,
     (∃ path, path ∈ cache_bypassPaths cfg ∧
              String.prefix path (Request.pathname request) = true) →
     cache (repeated cfg request rts w) = cache w ∧
     cacheCalls (repeated cfg request rts w) = cacheCalls w).
Proof.
  split; [apply shouldCache_false|].
  intros request rts w Hby.
  assert (CacheManager.shouldCache cfg request = false) as Hsc
    by (apply shouldCache_false; by right).
  unfold repeated. revert w. induction rts as [|rt rts IH]; intros w; [done|].
  simpl foldl. destruct (IH (handleRequest cfg rt request w).2) as [-> ->].
  by apply handleRequest_uncached.
Qed.

Lemma bypassed_path_never_cached_witness :
  let w := started [backend_A; backend_B] in
  let request := get_from "US" "/api/realtime/feed" in
  let rts := [answered 1000; answered 2000; refused 3000] in
  cache (repeated shipped request rts w) = cache w ∧
  cacheCalls (repeated shipped request rts w) = cacheCalls w.
Proof.
  intros w request rts.
  apply (proj2 (bypassed_path_never_cached shipped) request rts w).
  exists "/api/realtime". split; [left|reflexivity].
Defined.

(** The three counters after a request: [totalRequests] is one more,
    [cacheHits] and [cacheMisses] are not less, and [activeConnections]
    is the same. *)
Lemma handleRequest_metrics cfg rt request w :
  let m := metrics w in
  let m' := metrics (handleRequest cfg rt request w).2 in
  totalRequests m' = totalRequests m + 1 ∧
  cacheHits m ≤ cacheHits m' ∧ cacheMisses m ≤ cacheMisses m' ∧
  activeConnections m' = activeConnections m.
Proof.
  unfold handleRequest, route, forward, handleWebSocket, CacheManager.get,
    CacheManager.put.
  repeat case_match; simplify_eq; world_simpl; repeat split; lia.
Qed.

(** What one event does to the metrics and to the pool's table. *)
Lemma dispatch_metrics cfg event w :
  let m := metrics w in
  let m' := metrics (dispatch cfg event w) in
  totalRequests m' = totalRequests m + (if is_inbound event then 1 else 0) ∧
  cacheHits m ≤ cacheHits m' ∧ cacheMisses m ≤ cacheMisses m' ∧
  activeConnections m' = activeConnections m.
Proof.
  destruct event as [rt request|probe t]; cbn [dispatch is_inbound].
  - apply handleRequest_metrics.
  - unfold handleScheduled. world_simpl. repeat split; lia.
Qed.

(** C2.  Under every event the worker receives, an inbound request or a
    scheduled tick, no field of the metrics decreases: [totalRequests],
    [cacheHits] and [cacheMisses] only go up, and [activeConnections] is
    never written.  A request adds exactly 1 to [totalRequests] whatever
    its outcome, so after any run [totalRequests] has grown by the number
    of inbound requests. *)
Theorem metrics_only_increment cfg :
  (∀ event w,
     activeConnections (metrics w)
       ≤ activeConnections (metrics (dispatch cfg event w)) ∧
     totalRequests (metrics w) ≤ totalRequests (metrics (dispatch cfg event w)) ∧
     cacheHits (metrics w) ≤ cacheHits (metrics (dispatch cfg event w)) ∧
     cacheMisses (metrics w) ≤ cacheMisses (metrics (dispatch cfg event w))) ∧
  (∀ rt request w,
     totalRequests (metrics (handleRequest cfg rt request w).2)
       = totalRequests (metrics w) + 1) ∧
  (∀ events w,
     activeConnections (metrics w)
       ≤ activeConnections (metrics (run cfg events w)) ∧
     totalRequests (metrics (run cfg events w))
       = totalRequests (metrics w) + inbound events ∧
     cacheHits (metrics w) ≤ cacheHits (metrics (run cfg events w)) ∧
     cacheMisses (metrics w) ≤ cacheMisses (metrics (run cfg events w))).
Proof.
  split; [|split].
  - intros event w.
    pose proof (dispatch_metrics cfg event w) as (Ht & Hh & Hm & Ha).
    destruct (is_inbound event); repeat split; lia.
  - intros rt request w.
    by pose proof (handleRequest_metrics cfg rt request w) as (? & _).
  - intros events. unfold run, inbound.
    induction events as [|event events IH]; intros w.
    + simpl. repeat split; lia.
    + cbn [foldl List.filter].
      pose proof (dispatch_metrics cfg event w) as (Ht & Hh & Hm & Ha).
      destruct (IH (dispatch cfg event w)) as (Ia & It & Ih & Im).
      destruct (is_inbound event); cbn [length]; repeat split; lia.
Qed.

End handler.

(** ** Properties of the message listener *)

Section listener.
Context {N : Type} `{JSNumber N}.

(** The envelope of a reply to [data] with the given readings of the clock
    and the number the timestamp converts to. *)
Lemma respond_response t1 t2 (data : json N) type timestamp number :
  member "type" data = Normal type →
  is_pong type = false →
  member "timestamp" data = Normal timestamp →
  ToNumber timestamp = Normal number →
  respond t1 t2 (Parsed data)
    = Normal (Some (JObj [("type", JStr "response");
                          ("data", data);
                          ("timestamp", JNum (of_Z t1));
                          ("latency", JNum (sub (of_Z t2) number))])).
Proof.
  intros Hty Hpong Hts Hnum. unfold respond. cbn [parse mbind Completion_bind].
  rewrite Hty. cbn [mbind Completion_bind]. rewrite Hpong, Hts.
  cbn [mbind Completion_bind]. by rewrite Hnum.
Qed.

(** C9, as the code has it.  A parsed message that is not [null], whose
    type is not ["pong"] and whose timestamp converts to a number is
    answered with one envelope of exactly the fields [type] (["response"]),
    [data] (the parsed message), [timestamp] and [latency], the latency
    being the clock minus that number: minus the timestamp of the message
    when it is a number, NaN when the message has none.  The message
    [null], and a message whose timestamp does not convert, are answered
    with an error envelope. *)
Theorem on_message_replies t1 t2 (data : json N) :
  (∀ type timestamp number,
     member "type" data = Normal type →
     is_pong type = false →
     member "timestamp" data = Normal timestamp →
     ToNumber timestamp = Normal number →
     on_message t1 t2 (Parsed data)
       = [JObj [("type", JStr "response");
                ("data", data);
                ("timestamp", JNum (of_Z t1));
                ("latency", JNum (sub (of_Z t2) number))]]) ∧
  (∀ fields n,
     data = JObj fields →
     is_pong (field "type" fields) = false →
     field "timestamp" fields = Some (JNum n) →
     on_message t1 t2 (Parsed data)
       = [JObj [("type", JStr "response");
                ("data", data);
                ("timestamp", JNum (of_Z t1));
                ("latency", JNum (sub (of_Z t2) n))]]) ∧
  (∀ fields,
     data = JObj fields →
     is_pong (field "type" fields) = false →
     field "timestamp" fields = None →
     on_message t1 t2 (Parsed data)
       = [JObj [("type", JStr "response");
                ("data", data);
                ("timestamp", JNum (of_Z t1));
                ("latency", JNum (sub (of_Z t2) nan))]]) ∧
  (data = JNull →
     on_message t1 t2 (Parsed data)
       = [JObj [("type", JStr "error");
                ("error", JStr (message null_type_error))]]) ∧
  (∀ type timestamp error,
     member "type" data = Normal type →
     is_pong type = false →
     member "timestamp" data = Normal timestamp →
     ToNumber timestamp = Throw error →
     on_message t1 t2 (Parsed data)
       = [JObj [("type", JStr "error"); ("error", JStr (message error))]]).
Proof.
  split; [|split; [|split; [|split]]].
  - intros type timestamp number Hty Hpong Hts Hnum. unfold on_message.
    by rewrite (respond_response _ _ _ _ _ _ Hty Hpong Hts Hnum).
  - intros fields n -> Hpong Hts. unfold on_message.
    by rewrite (respond_response t1 t2 (JObj fields) (field "type" fields)
                  (Some (JNum n)) n eq_refl Hpong (f_equal Normal Hts) eq_refl).
  - intros fields -> Hpong Hts. unfold on_message.
    by rewrite (respond_response t1 t2 (JObj fields) (field "type" fields)
                  None nan eq_refl Hpong (f_equal Normal Hts) eq_refl).
  - intros ->. reflexivity.
  - intros type timestamp error Hty Hpong Hts Hnum.
    unfold on_message, respond. cbn [parse mbind Completion_bind].
    rewrite Hty. cbn [mbind Completion_bind]. rewrite Hpong, Hts.
    cbn [mbind Completion_bind]. by rewrite Hnum.
Qed.

End listener.

Lemma on_message_replies_witness :
  on_message 1000 1001 (Parsed stamped)
    = [JObj [("type", JStr "response");
             ("data", stamped);
             ("timestamp", JNum (Some 1000));
             ("latency", JNum (Some 11))]].
Proof.
  exact (proj1 (proj2 (on_message_replies 1000 1001 stamped))
           [("type", JStr "message"); ("data", JStr "hello");
            ("timestamp", JNum (Some 990))] (Some 990)
           eq_refl eq_refl eq_refl).
Defined.

(** A message of type ["message"] whose timestamp is an object with an
    own [toString] is answered with an error envelope, not with a
    response; so is the message [null]. *)
Lemma odd_timestamp_gets_error :
  is_pong (field "type" [("type", JStr "message" : json (option Z))]) = false ∧
  on_message 1000 1001 (Parsed odd_timestamp)
    = [JObj [("type", JStr "error");
             ("error", JStr "Cannot convert object to primitive value")]] ∧
  on_message 1000 1001 (Parsed (JNull : json (option Z)))
    = [JObj [("type", JStr "error");
             ("error",
              JStr "Cannot read properties of null (reading 'type')")]] ∧
  ¬ (∀ data : json (option Z),
       (∀ type, member "type" data = Normal type → is_pong type = false) →
       ∃ response, on_message 1000 1001 (Parsed data) = [response] ∧
                   keys response = ["type"; "data"; "timestamp"; "latency"]).
Proof.
  split; [reflexivity|]. split; [reflexivity|]. split; [reflexivity|].
  intros Hall. destruct (Hall odd_timestamp) as (response & Hr & Hk).
  - intros type Hty. injection Hty as <-. reflexivity.
  - injection Hr as <-. discriminate Hk.
Qed.

(** ** More on the rate limiter *)

Section rate_limiter_more.
Import RateLimiter.

Lemma newer_than_newer_than a b l :
  b ≤ a → newer_than a (newer_than b l) = newer_than a l.
Proof.
  intros Hba. unfold newer_than. induction l as [|t l IH]; [done|].
  rewrite !filter_cons. destruct (decide (b < t)) as [Hb|Hb].
  - rewrite filter_cons. destruct (decide (a < t)); by rewrite IH.
  - rewrite IH. destruct (decide (a < t)); [lia|done].
Qed.

Lemma newer_than_length a l : (length (newer_than a l) ≤ length l)%nat.
Proof. unfold newer_than. apply length_filter. Qed.

(** What a client has in the table after [cleanup], read with the default
    of [checkLimit]. *)
Lemma cleanup_default cfg now (table : gmap string (list Z)) c :
  default [] (cleanup cfg now table !! c)
    = newer_than (now - windowMs cfg) (default [] (table !! c)).
Proof.
  rewrite cleanup_lookup. destruct (table !! c) as [l|]; simpl; [|done].
  unfold pruned_entry.
  by destruct (newer_than (now - windowMs cfg) l).
Qed.

(** X1. [checkLimit] for one client never touches the record of another, and
    with rate limiting disabled it admits and leaves the whole table as it
    was. *)
Theorem checkLimit_isolated cfg now c (table : gmap string (list Z)) :
  (∀ c', c ≠ c' → (checkLimit cfg now c table).2 !! c' = table !! c') ∧
  (enabled cfg = false → checkLimit cfg now c table = (true, table)).
Proof.
  split.
  - intros c' Hne. unfold checkLimit.
    repeat case_match; simpl; try done. by rewrite lookup_insert_ne.
  - intros Hoff. unfold checkLimit. by rewrite Hoff.
Qed.

(** X2. An admitted request leaves the client with a list that ends with
    [now], holds nothing older than the window, and is no longer than
    [requestsPerMinute]. *)
Theorem checkLimit_admitted_bound cfg now c (table : gmap string (list Z)) :
  enabled cfg = true →
  (checkLimit cfg now c table).1 = true →
  ∃ l, (checkLimit cfg now c table).2 !! c = Some l ∧
       Z.of_nat (length l) ≤ requestsPerMinute cfg ∧
       last l = Some now ∧
       (∀ t, t ∈ l → t = now ∨ now - windowMs cfg < t).
Proof.
  intros Hen. unfold checkLimit. rewrite Hen. simpl.
  destruct (Z.geb_spec
              (Z.of_nat (length (newer_than (now - windowMs cfg)
                                   (default [] (table !! c)))))
              (requestsPerMinute cfg)) as [Hge|Hlt]; simpl; [done|].
  intros _. eexists. split; [by rewrite lookup_insert_eq|].
  split; [|split].
  - rewrite length_app. simpl. lia.
  - by rewrite last_snoc.
  - intros t Ht. apply elem_of_app in Ht as [Ht|Ht].
    + right. by apply newer_than_spec in Ht as [_ ?].
    + left. by apply list_elem_of_singleton in Ht.
Qed.

Lemma checkLimit_admitted_bound_witness :
  ∃ l, (checkLimit two_per_minute 60001 "10.0.0.1"
          {["10.0.0.1" := [0; 5]]}).2 !! "10.0.0.1" = Some l ∧
       Z.of_nat (length l) ≤ 2 ∧
       last l = Some 60001 ∧
       (∀ t, t ∈ l → t = 60001 ∨ 60001 - 60000 < t).
Proof.
  apply (checkLimit_admitted_bound two_per_minute 60001 "10.0.0.1"
           {["10.0.0.1" := [0; 5]]}).
  - reflexivity.
  - unfold checkLimit. cbn [enabled two_per_minute negb].
    rewrite lookup_singleton_eq. reflexivity.
Defined.

(** X3. A [cleanup] at an earlier or equal time changes no later decision of
    [checkLimit], and no list an admission stores. *)
Theorem cleanup_keeps_decisions cfg now' now c (table : gmap string (list Z)) :
  now' ≤ now →
  (checkLimit cfg now c (cleanup cfg now' table)).1
    = (checkLimit cfg now c table).1 ∧
  ((checkLimit cfg now c table).1 = true →
   enabled cfg = true →
   (checkLimit cfg now c (cleanup cfg now' table)).2 !! c
     = (checkLimit cfg now c table).2 !! c).
Proof.
  intros Hle. unfold checkLimit.
  destruct (enabled cfg); simpl; [|done].
  rewrite cleanup_default, newer_than_newer_than by lia.
  destruct (Z.of_nat _ >=? requestsPerMinute cfg); simpl; [done|].
  split; [done|]. intros _ _. by rewrite !lookup_insert_eq.
Qed.

Lemma cleanup_keeps_decisions_witness :
  (checkLimit two_per_minute 10 "10.0.0.1"
     (cleanup two_per_minute 7 {["10.0.0.1" := [0; 5]]})).1
    = (checkLimit two_per_minute 10 "10.0.0.1" {["10.0.0.1" := [0; 5]]}).1.
Proof.
  refine (proj1 (cleanup_keeps_decisions two_per_minute 7 10 "10.0.0.1"
                   {["10.0.0.1" := [0; 5]]} _)).
  lia.
Defined.

(** X4. [cleanup] run twice at the same time is [cleanup] run once, and it
    never adds a client to the table. *)
Theorem cleanup_idempotent cfg now (table : gmap string (list Z)) :
  cleanup cfg now (cleanup cfg now table) = cleanup cfg now table ∧
  dom (cleanup cfg now table) ⊆ dom table ∧
  (size (cleanup cfg now table) ≤ size table)%nat.
Proof.
  assert (dom (cleanup cfg now table) ⊆ dom table) as Hdom.
  { intros c Hc. apply elem_of_dom in Hc as [l Hl]. apply elem_of_dom.
    rewrite cleanup_lookup in Hl. destruct (table !! c); [done|discriminate]. }
  split; [|split; [done|]].
  - apply map_eq. intros c. rewrite !cleanup_lookup.
    destruct (table !! c) as [l|]; simpl; [|done].
    unfold pruned_entry.
    destruct (newer_than (now - windowMs cfg) l) as [|t v] eqn:Hv; simpl; [done|].
    rewrite <- Hv, newer_than_newer_than by lia. by rewrite Hv.
  - rewrite <- !size_dom. by apply subseteq_size.
Qed.

End rate_limiter_more.

(** ** More on the health checker and the router *)

Section routing_more.
Import HealthChecker SmartRouter.

Lemma indexed_increasing (f : nat → nat) (l : list Backend.t) :
  (∀ i j, (i < j)%nat → (f i < f j)%nat) →
  StronglySorted (λ x y : nat * Backend.t, (x.1 < y.1)%nat)
    (imap (λ i b, (f i, b)) l).
Proof.
  revert f. induction l as [|b l IH]; intros f Hf; [constructor|].
  rewrite imap_cons. apply StronglySorted_cons. split.
  - apply Forall_forall. intros y Hy.
    apply elem_of_lookup_imap in Hy as (j & c & -> & _). simpl. apply Hf. lia.
  - apply (IH (λ i, f (S i))). intros i j Hij. apply Hf. lia.
Qed.

Lemma filter_increasing (P : nat * Backend.t → bool) l :
  StronglySorted (λ x y : nat * Backend.t, (x.1 < y.1)%nat) l →
  StronglySorted (λ x y : nat * Backend.t, (x.1 < y.1)%nat) (List.filter P l).
Proof.
  induction 1 as [|x l Hs IH Hx]; simpl; [constructor|].
  destruct (P x); [|done]. apply StronglySorted_cons. split; [|done].
  apply Forall_forall. intros y Hy. apply list_elem_of_In in Hy.
  apply filter_In in Hy as [Hy _]. apply list_elem_of_In in Hy.
  by apply (proj1 (Forall_forall _ _) Hx).
Qed.

Lemma insert_by_priority_sorted x l :
  StronglySorted precedes l →
  (∀ y, y ∈ l → (x.1 < y.1)%nat) →
  StronglySorted precedes (insert_by_priority x l).
Proof.
  induction 1 as [|y l Hs IH Hy]; intros Hx; simpl.
  - apply StronglySorted_cons. split; [constructor|constructor].
  - destruct (Z.leb_spec (Backend.priority x.2) (Backend.priority y.2))
      as [Hle|Hgt].
    + apply StronglySorted_cons. split; [|by apply StronglySorted_cons].
      assert (precedes x y) as Hxy.
      { unfold precedes. assert (x.1 < y.1)%nat by (apply Hx; left). lia. }
      apply Forall_cons. split; [done|].
      apply Forall_forall. intros z Hz.
      pose proof (proj1 (Forall_forall _ _) Hy z Hz) as Hyz.
      assert (x.1 < z.1)%nat by (apply Hx; by right).
      unfold precedes in *. lia.
    + apply StronglySorted_cons. split.
      * apply Forall_forall. intros z Hz.
        apply elem_of_insert_by_priority in Hz as [->|Hz].
        -- unfold precedes. lia.
        -- by apply (proj1 (Forall_forall _ _) Hy).
      * apply IH. intros z Hz. apply Hx. by right.
Qed.

Lemma sort_by_priority_sorted l :
  StronglySorted (λ x y : nat * Backend.t, (x.1 < y.1)%nat) l →
  StronglySorted precedes (sort_by_priority l).
Proof.
  unfold sort_by_priority.
  induction 1 as [|x l Hs IH Hx]; simpl; [constructor|].
  apply insert_by_priority_sorted; [done|].
  intros y Hy. apply (elem_of_sort_by_priority y l) in Hy.
  by apply (proj1 (Forall_forall _ _) Hx).
Qed.

Lemma getHealthyBackends_in_order w :
  StronglySorted precedes (getHealthyBackends w).
Proof.
  unfold getHealthyBackends. apply sort_by_priority_sorted, filter_increasing.
  apply (indexed_increasing (λ i, i)). done.
Qed.

(** X5. [getHealthyBackends()] is in ascending order of priority, and among
    backends of one priority in the order of [CONFIG.backends]; it holds
    the healthy entries of [CONFIG.backends] and nothing else. *)
Theorem getHealthyBackends_sorted w :
  StronglySorted precedes (getHealthyBackends w) ∧
  (∀ i b, (i, b) ∈ getHealthyBackends w ↔
          backends w !! i = Some b ∧ Backend.healthy b = true).
Proof.
  split; [apply getHealthyBackends_in_order|].
  intros; apply elem_of_getHealthyBackends.
Qed.

(** The head of the array of healthy backends is the best of them. *)
Lemma getHealthyBackends_head w best rest i b :
  getHealthyBackends w = best :: rest →
  backends w !! i = Some b → Backend.healthy b = true →
  Backend.priority best.2 ≤ Backend.priority b ∧
  (Backend.priority best.2 = Backend.priority b → (best.1 ≤ i)%nat).
Proof.
  intros Hh Hi Hb.
  assert ((i, b) ∈ getHealthyBackends w) as Hin
    by (by apply elem_of_getHealthyBackends).
  pose proof (getHealthyBackends_in_order w) as Hs.
  rewrite Hh in Hin, Hs. apply StronglySorted_cons in Hs as [Hall _].
  apply elem_of_cons in Hin as [<-|Hin]; simpl; [lia|].
  pose proof (proj1 (Forall_forall _ _) Hall _ Hin) as Hp.
  unfold precedes in Hp. simpl in Hp. lia.
Qed.

(** X6. When some backend is healthy, [selectBackend] returns a healthy entry
    of [CONFIG.backends]; when none of the healthy ones is in the client's
    region, the one it returns has the least priority value among them,
    and is the first of those in [CONFIG.backends]. *)
Theorem selectBackend_failover request w :
  (∃ b, b ∈ backends w ∧ Backend.healthy b = true) →
  ∃ i b,
    selectBackend request w = Some (i, b) ∧
    backends w !! i = Some b ∧ Backend.healthy b = true ∧
    ((∀ b', b' ∈ backends w → Backend.healthy b' = true →
            in_region
              (getRegionFromCountry
                 (or_default
                    (Headers.get "cf-ipcountry" (Request.headers request))
                    "US")) b' = false) →
     ∀ j b', backends w !! j = Some b' → Backend.healthy b' = true →
             Backend.priority b ≤ Backend.priority b' ∧
             (Backend.priority b = Backend.priority b' → (i ≤ j)%nat)).
Proof.
  intros (b0 & Hb0 & Hh0).
  apply list_elem_of_lookup_1 in Hb0 as [i0 Hi0].
  assert ((i0, b0) ∈ getHealthyBackends w) as Hin0
    by (by apply elem_of_getHealthyBackends).
  unfold selectBackend.
  destruct (getHealthyBackends w) as [|[i1 b1] rest] eqn:Hh.
  { by apply not_elem_of_nil in Hin0. }
  simpl length. simpl Nat.eqb. cbv iota.
  assert ((i1, b1) ∈ getHealthyBackends w) as Hin1 by (rewrite Hh; left).
  apply elem_of_getHealthyBackends in Hin1 as [Hi1 Hh1].
  destruct (find _ ((i1, b1) :: rest)) as [[j c]|] eqn:Hf.
  - apply find_some in Hf as [Hjc Hc]. apply list_elem_of_In in Hjc.
    rewrite <- Hh in Hjc. apply elem_of_getHealthyBackends in Hjc as [Hj Hhc].
    exists j, c. split; [done|]. split; [done|]. split; [done|].
    intros Hnone. apply list_elem_of_lookup_2 in Hj.
    simpl in Hc. rewrite (Hnone c Hj Hhc) in Hc. discriminate.
  - exists i1, b1. split; [done|]. split; [done|]. split; [done|].
    intros _ j b' Hj Hb'.
    apply (getHealthyBackends_head w (i1, b1) rest j b' Hh Hj Hb').
Qed.

Lemma selectBackend_failover_witness :
  ∃ i b,
    selectBackend (get_from "JP" "/api/data") (started [backend_A; backend_B])
      = Some (i, b) ∧
    backends (started [backend_A; backend_B]) !! i = Some b ∧
    Backend.healthy b = true ∧
    ((∀ b', b' ∈ backends (started [backend_A; backend_B]) →
            Backend.healthy b' = true →
            in_region
              (getRegionFromCountry
                 (or_default
                    (Headers.get "cf-ipcountry"
                       (Request.headers (get_from "JP" "/api/data"))) "US"))
              b' = false) →
     ∀ j b', backends (started [backend_A; backend_B]) !! j = Some b' →
             Backend.healthy b' = true →
             Backend.priority b ≤ Backend.priority b' ∧
             (Backend.priority b = Backend.priority b' → (i ≤ j)%nat)).
Proof.
  apply (selectBackend_failover (get_from "JP" "/api/data")
           (started [backend_A; backend_B])).
  exists backend_A. split; [left|reflexivity].
Defined.

(** X7. [selectBackend] returns [undefined] exactly when [CONFIG.backends] is
    empty. *)
Theorem selectBackend_none request w :
  selectBackend request w = None ↔ backends w = [].
Proof.
  split.
  - intros Hnone. destruct (backends w) as [|b bs] eqn:Hbs; [done|]. exfalso.
    unfold selectBackend in Hnone.
    destruct (getHealthyBackends w) as [|hb rest] eqn:Hh.
    + simpl in Hnone. rewrite Hbs in Hnone. discriminate.
    + cbn [length Nat.eqb] in Hnone.
      destruct (find _ (hb :: rest)); discriminate.
  - intros Hbs. unfold selectBackend.
    rewrite (getHealthyBackends_nil w) by (rewrite Hbs; by inversion 1).
    simpl. by rewrite Hbs.
Qed.

(** X8. A country code that names a property inherited by the [regions]
    object resolves to that property, not to a region name, and not to the
    default either: no backend is in that region, and the backend is
    chosen by priority alone. *)
Theorem selectBackend_inherited_country request w :
  existsb
    (String.eqb
       (or_default (Headers.get "cf-ipcountry" (Request.headers request)) "US"))
    inherited = true →
  selectBackend request w = by_priority w.
Proof.
  intros Hin. unfold selectBackend, by_priority.
  set (country := or_default _ _) in *.
  assert (getRegionFromCountry country = Inherited country) as Hregion.
  { unfold getRegionFromCountry. rewrite Hin.
    unfold inherited in Hin. cbn [existsb] in Hin.
    repeat (apply orb_true_iff in Hin as [Hin|Hin];
            [apply String.eqb_eq in Hin; rewrite Hin; reflexivity|]).
    discriminate. }
  rewrite Hregion.
  destruct (getHealthyBackends w) as [|hb rest]; [done|].
  cbn [length Nat.eqb in_region].
  assert (∀ l : list (nat * Backend.t), find (λ _, false) l = None) as Hfind
    by (induction l; done).
  by rewrite Hfind.
Qed.

Lemma selectBackend_inherited_country_witness :
  selectBackend (get_from "constructor" "/api/data")
    (started [backend_A; backend_B])
    = by_priority (started [backend_A; backend_B]).
Proof.
  apply (selectBackend_inherited_country (get_from "constructor" "/api/data")
           (started [backend_A; backend_B])).
  reflexivity.
Defined.

(** X9. [updateHealthStatus()] gives every backend the result of its own
    probe, a failed probe counting as unhealthy, and changes nothing else
    of the registry; afterwards the healthy backends are those whose probe
    answered with [ok]. *)
Theorem updateHealthStatus_probes probe w :
  length (backends (updateHealthStatus probe w)) = length (backends w) ∧
  (∀ i, backends (updateHealthStatus probe w) !! i
          = Backend.set_healthy (checkHealth (probe i)) <$> backends w !! i) ∧
  (∀ i b, (i, b) ∈ getHealthyBackends (updateHealthStatus probe w) ↔
          probe i = Answered true ∧
          ∃ b0, backends w !! i = Some b0 ∧ b = Backend.set_healthy true b0).
Proof.
  assert (∀ i, backends (updateHealthStatus probe w) !! i
               = Backend.set_healthy (checkHealth (probe i)) <$> backends w !! i)
    as Hlook.
  { intros i. unfold updateHealthStatus. cbn [backends with_healthStatus with_backends].
    by rewrite list_lookup_imap. }
  split; [|split; [done|]].
  - unfold updateHealthStatus. cbn [backends with_healthStatus with_backends].
    apply length_imap.
  - intros i b. rewrite elem_of_getHealthyBackends, Hlook. split.
    + intros [Hb Hh]. destruct (backends w !! i) as [b0|]; [|done].
      simpl in Hb. injection Hb as <-. simpl in Hh.
      destruct (probe i) as [[]|]; simpl in Hh; try discriminate.
      split; [done|]. by exists b0.
    + intros [Hp (b0 & Hb0 & ->)]. rewrite Hb0, Hp. done.
Qed.

End routing_more.

(** ** More on the optimizer *)

Section optimizer_more.
Import Headers RequestOptimizer.

Lemma lower_lower s : lower (lower s) = lower s.
Proof.
  induction s as [|c s IH]; simpl; [done|]. f_equal; [|done].
  unfold lower_ascii.
  destruct ((65 <=? N_of_ascii c)%N && (N_of_ascii c <=? 90)%N) eqn:E.
  - apply andb_true_iff in E as [Hlo Hhi].
    apply N.leb_le in Hlo. apply N.leb_le in Hhi.
    rewrite N_ascii_embedding by lia.
    destruct (N.leb_spec 65 (N_of_ascii c + 32)),
             (N.leb_spec (N_of_ascii c + 32) 90); simpl; (done || lia).
  - by rewrite E.
Qed.

Lemma named_false name e : named name e = false ↔ lower e.1 ≠ lower name.
Proof. rewrite <- not_true_iff_false, named_spec. done. Qed.

(** The entries of one name are not affected by a deletion of another. *)
Lemma filter_delete_other n m (h : Headers.t) :
  lower m ≠ lower n →
  List.filter (named n) (delete m h) = List.filter (named n) h.
Proof.
  intros Hne. unfold delete. induction h as [|e h IH]; simpl; [done|].
  destruct (named m e) eqn:Em; simpl.
  - apply named_spec in Em.
    assert (named n e = false) as -> by (apply named_false; congruence). done.
  - destruct (named n e); by rewrite IH.
Qed.

Lemma filter_delete_same n (h : Headers.t) :
  List.filter (named n) (delete n h) = [].
Proof.
  unfold delete. induction h as [|e h IH]; simpl; [done|].
  destruct (named n e) eqn:En; simpl; [done|]. by rewrite En.
Qed.

Lemma delete_absent n (h : Headers.t) :
  List.filter (named n) h = [] → delete n h = h.
Proof.
  unfold delete. induction h as [|e h IH]; simpl; [done|].
  destruct (named n e); simpl; [done|]. intros Hf. by rewrite IH.
Qed.

(** The entries of one name are not affected by a [set] of another. *)
Lemma filter_set_other n m v (h : Headers.t) :
  lower m ≠ lower n →
  List.filter (named n) (set m v h) = List.filter (named n) h.
Proof.
  intros Hne. induction h as [|e h IH]; simpl.
  - assert (named n (lower m, v) = false) as ->; [|done].
    apply named_false. simpl. by rewrite lower_lower.
  - destruct (named m e) eqn:Em; simpl.
    + apply named_spec in Em.
      assert (named n e = false) as Hn by (apply named_false; congruence).
      assert (named n (e.1, v) = false) as ->
        by (apply named_false; simpl; congruence).
      by rewrite Hn, filter_delete_other.
    + destruct (named n e); by rewrite IH.
Qed.

(** After [set] there is one entry of the name, with the value set. *)
Lemma filter_set_same n v (h : Headers.t) :
  ∃ k, List.filter (named n) (set n v h) = [(k, v)].
Proof.
  induction h as [|e h IH]; simpl.
  - exists (lower n).
    assert (named n (lower n, v) = true) as ->; [|done].
    apply named_spec. simpl. apply lower_lower.
  - destruct (named n e) eqn:En; simpl.
    + exists e.1.
      assert (named n (e.1, v) = true) as -> by (by apply named_spec, named_spec).
      by rewrite filter_delete_same.
    + by rewrite En.
Qed.

(** A [set] of the value that the one entry of the name has changes
    nothing. *)
Lemma set_present n v (h : Headers.t) k :
  List.filter (named n) h = [(k, v)] → set n v h = h.
Proof.
  induction h as [|e h IH]; simpl; [done|].
  destruct (named n e) eqn:En.
  - intros [= -> Hrest]. simpl. by rewrite delete_absent.
  - intros Hf. by rewrite IH.
Qed.

Lemma get_filter n (h h' : Headers.t) :
  List.filter (named n) h = List.filter (named n) h' → get n h = get n h'.
Proof. unfold get. by intros ->. Qed.

Lemma get_set_same n v (h : Headers.t) : get n (set n v h) = Some v.
Proof. unfold get. by destruct (filter_set_same n v h) as [k ->]. Qed.

Lemma get_set_other n m v (h : Headers.t) :
  lower m ≠ lower n → get n (set m v h) = get n h.
Proof. intros Hne. by apply get_filter, filter_set_other. Qed.

Lemma get_delete_other n m (h : Headers.t) :
  lower m ≠ lower n → get n (delete m h) = get n h.
Proof. intros Hne. by apply get_filter, filter_delete_other. Qed.

(** X10. The performance headers of [optimizeHeaders]: each is set to its fixed
    value when its flag is on, replacing what the client sent under that
    name, and is as the client sent it when the flag is off. *)
Theorem optimizeHeaders_hints cfg headers :
  get "accept-encoding" (optimizeHeaders cfg headers)
    = (if optimization_compression cfg then Some "gzip, deflate, br"
       else get "accept-encoding" headers) ∧
  get "upgrade" (optimizeHeaders cfg headers)
    = (if optimization_http2 cfg then Some "h2" else get "upgrade" headers) ∧
  get "connection" (optimizeHeaders cfg headers)
    = (if optimization_keepAlive cfg then Some "keep-alive"
       else get "connection" headers) ∧
  get "keep-alive" (optimizeHeaders cfg headers)
    = (if optimization_keepAlive cfg then Some "timeout=60, max=1000"
       else get "keep-alive" headers).
Proof.
  unfold optimizeHeaders.
  destruct (optimization_compression cfg), (optimization_http2 cfg),
    (optimization_keepAlive cfg);
    repeat split;
    repeat first [ rewrite get_set_same
                 | rewrite get_set_other by discriminate
                 | rewrite get_delete_other by discriminate ];
    reflexivity.
Qed.

(** X11. Every header other than the two that are deleted and the four that
    may be set reaches the backend as the client sent it. *)
Theorem optimizeHeaders_keeps_others cfg headers name :
  lower name ∉ ["cookie"; "authorization"; "accept-encoding"; "upgrade";
                "connection"; "keep-alive"] →
  get name (optimizeHeaders cfg headers) = get name headers.
Proof.
  intros Hname.
  assert (lower "cookie" ≠ lower name ∧ lower "authorization" ≠ lower name ∧
          lower "accept-encoding" ≠ lower name ∧ lower "upgrade" ≠ lower name ∧
          lower "connection" ≠ lower name ∧ lower "keep-alive" ≠ lower name)
    as (H1 & H2 & H3 & H4 & H5 & H6).
  { repeat split; intros Heq; apply Hname; rewrite <- Heq;
      apply list_elem_of_In; simpl; repeat first [left; reflexivity | right]. }
  apply get_filter. unfold optimizeHeaders.
  destruct (optimization_compression cfg), (optimization_http2 cfg),
    (optimization_keepAlive cfg);
    repeat first [ rewrite filter_set_other by done
                 | rewrite filter_delete_other by done ];
    reflexivity.
Qed.

Lemma optimizeHeaders_keeps_others_witness :
  get "x-request-id"
    (optimizeHeaders shipped [("X-Request-Id", "42"); ("Cookie", "sid=1")])
    = get "x-request-id" [("X-Request-Id", "42"); ("Cookie", "sid=1")].
Proof.
  apply (optimizeHeaders_keeps_others shipped
           [("X-Request-Id", "42"); ("Cookie", "sid=1")] "x-request-id").
  rewrite list_elem_of_In. simpl. intuition discriminate.
Defined.

(** X12. Optimizing headers that are already optimized changes nothing. *)
Theorem optimizeHeaders_idempotent cfg headers :
  optimizeHeaders cfg (optimizeHeaders cfg headers) = optimizeHeaders cfg headers.
Proof.
  assert (∀ n, (n = "cookie" ∨ n = "authorization") →
               delete n (optimizeHeaders cfg headers)
                 = optimizeHeaders cfg headers) as Hdel.
  { intros n Hn. apply delete_absent.
    destruct (List.filter (named n) (optimizeHeaders cfg headers))
      as [|e l] eqn:E; [done|].
    assert (In e (List.filter (named n) (optimizeHeaders cfg headers))) as Hin
      by (rewrite E; by left).
    apply filter_In in Hin as [Hin Hnamed]. apply list_elem_of_In in Hin.
    apply named_spec in Hnamed.
    destruct (optimizeHeaders_without cfg headers n e); [|done|done].
    destruct Hn as [-> | ->]; [by left|by right]. }
  unfold optimizeHeaders at 1.
  rewrite (Hdel "cookie") by (by left).
  rewrite (Hdel "authorization") by (by right).
  unfold optimizeHeaders.
  set (h0 := delete "authorization" (delete "cookie" headers)).
  destruct (optimization_compression cfg), (optimization_http2 cfg),
    (optimization_keepAlive cfg);
    repeat match goal with
      | |- context [set ?n ?v ?h] =>
          lazymatch h with
          | context [set n v _] =>
              let k := fresh "k" in
              let Hk := fresh "Hk" in
              assert (∃ k, List.filter (named n) h = [(k, v)]) as [k Hk]
                by (repeat first
                      [ apply filter_set_same
                      | rewrite filter_set_other by discriminate ]);
              rewrite (set_present n v h k Hk); clear k Hk
          end
      end;
    reflexivity.
Qed.

End optimizer_more.

(** ** More on the cache manager and the connection pool *)

Section cache_more.
Import CacheManager.

(** X13. A response put for a cacheable request is what the next [get] of that
    request returns, with its status and body, marked with the configured
    max-age and as a hit; the [get] counts one hit and no miss.  Whatever
    was stored for the request before is replaced. *)
Theorem put_then_get cfg request response w :
  shouldCache cfg request = true →
  ∃ stored,
    (get cfg false request (put cfg false request response w)).1 = Some stored ∧
    Response.status stored = Response.status response ∧
    Response.body stored = Response.body response ∧
    Headers.get "cache-control" (Response.headers stored)
      = Some ("public, max-age=" +:+ pretty (cache_ttl cfg)) ∧
    Headers.get "x-cache-status" (Response.headers stored) = Some "HIT" ∧
    cacheHits (metrics (get cfg false request
                          (put cfg false request response w)).2)
      = cacheHits (metrics w) + 1 ∧
    cacheMisses (metrics (get cfg false request
                            (put cfg false request response w)).2)
      = cacheMisses (metrics w).
Proof.
  intros Hsc. unfold get, put. rewrite Hsc. cbn [negb]. world_simpl.
  rewrite lookup_insert_eq. world_simpl.
  eexists. split; [done|]. cbn [Response.with_headers Response.status
                                Response.body Response.headers].
  split; [done|]. split; [done|]. split; [|split; [|done]].
  - rewrite get_set_other by discriminate. apply get_set_same.
  - apply get_set_same.
Qed.

Lemma put_then_get_witness :
  ∃ stored,
    (get shipped false (get_from "US" "/api/data")
       (put shipped false (get_from "US" "/api/data")
          (Response.make (Response.Stream "ok") 200 [])
          (started [backend_A]))).1 = Some stored ∧
    Response.status stored = 200 ∧
    Response.body stored = Response.Stream "ok" ∧
    Headers.get "cache-control" (Response.headers stored)
      = Some ("public, max-age=" +:+ pretty (cache_ttl shipped)) ∧
    Headers.get "x-cache-status" (Response.headers stored) = Some "HIT" ∧
    cacheHits (metrics (get shipped false (get_from "US" "/api/data")
                          (put shipped false (get_from "US" "/api/data")
                             (Response.make (Response.Stream "ok") 200 [])
                             (started [backend_A]))).2)
      = cacheHits (metrics (started [backend_A])) + 1 ∧
    cacheMisses (metrics (get shipped false (get_from "US" "/api/data")
                            (put shipped false (get_from "US" "/api/data")
                               (Response.make (Response.Stream "ok") 200 [])
                               (started [backend_A]))).2)
      = cacheMisses (metrics (started [backend_A])).
Proof.
  apply (put_then_get shipped (get_from "US" "/api/data")
           (Response.make (Response.Stream "ok") 200 []) (started [backend_A])).
  reflexivity.
Defined.

(** X14. [get] never writes the edge cache.  It returns what the cache holds
    for the request, unless the request is not cacheable or [cache.match]
    throws, when it returns nothing.  It counts one hit when it returns a
    response, one miss when the cache answered with nothing, and neither
    when the cache was not asked or threw. *)
Theorem get_counts cfg matchThrows request w :
  let asked := shouldCache cfg request && negb matchThrows in
  let result := get cfg matchThrows request w in
  cache result.2 = cache w ∧
  result.1 = (if asked then cache w !! Request.url request else None) ∧
  cacheHits (metrics result.2)
    = cacheHits (metrics w) + (if result.1 is Some _ then 1 else 0) ∧
  cacheMisses (metrics result.2)
    = cacheMisses (metrics w)
      + (if asked then (if result.1 is Some _ then 0 else 1) else 0).
Proof.
  unfold get.
  destruct (shouldCache cfg request), matchThrows; cbn [negb andb];
    world_simpl; try (repeat split; (done || lia)).
  destruct (cache w !! Request.url request); world_simpl; repeat split;
    (done || lia).
Qed.

(** An error of [cache.put] is swallowed: the cache holds what it held,
    and the counters are as they were. *)
Theorem put_failure_swallowed cfg request response w :
  cache (put cfg true request response w) = cache w ∧
  metrics (put cfg true request response w) = metrics w ∧
  backends (put cfg true request response w) = backends w.
Proof. unfold put. destruct (shouldCache cfg request); by world_simpl. Qed.

End cache_more.

Section pool_more.
Import ConnectionPool.

(** X15. A connection set under a key is the one [getConnection] returns for
    it, and none after [removeConnection]; other keys are not affected;
    [activeConnections] goes up by one for a new key, stays for a key
    already present, and goes down by one when a present key is removed. *)
Theorem connection_round_trip key connection w :
  getConnection key (setConnection key connection w) = Some connection ∧
  getConnection key (removeConnection key w) = None ∧
  (∀ other, other ≠ key →
     getConnection other (setConnection key connection w)
       = getConnection other w ∧
     getConnection other (removeConnection key w) = getConnection other w) ∧
  activeConnections (metrics (setConnection key connection w))
    = Z.of_nat (size (connections w))
      + (if connections w !! key is Some _ then 0 else 1) ∧
  activeConnections (metrics (removeConnection key w))
    = Z.of_nat (size (connections w))
      - (if connections w !! key is Some _ then 1 else 0).
Proof.
  unfold getConnection, setConnection, removeConnection. world_simpl.
  split; [apply lookup_insert_eq|]. split; [apply lookup_delete_eq|].
  split; [|split].
  - intros other Hne. by rewrite lookup_insert_ne, lookup_delete_ne.
  - destruct (connections w !! key) as [c|] eqn:Hk.
    + rewrite <- (insert_delete_id (connections w) key c) at 1 by done.
      rewrite insert_insert_eq.
      rewrite <- (insert_delete_id (connections w) key c) at 2 by done.
      rewrite !map_size_insert_None by apply lookup_delete_eq. lia.
    + rewrite map_size_insert_None by done. lia.
  - destruct (connections w !! key) as [c|] eqn:Hk.
    + rewrite <- (insert_delete_id (connections w) key c) at 2 by done.
      rewrite map_size_insert_None by apply lookup_delete_eq. lia.
    + rewrite delete_id by done. lia.
Qed.

End pool_more.

(** ** More on the request handler *)

Section handler_more.

(** Up to the choice of a backend the handler makes no [fetch] and leaves
    the registry alone. *)
Lemma route_quiet cfg rt request w :
  fetches (routed_world (route cfg rt request w)) = fetches w ∧
  backends (routed_world (route cfg rt request w)) = backends w.
Proof.
  unfold route, handleWebSocket, CacheManager.get.
  repeat case_match; simplify_eq; by world_simpl.
Qed.

Lemma proxied_gate request :
  proxied request →
  String.eqb (Request.pathname request) "/health" = false ∧
  String.eqb (Request.pathname request) "/metrics" = false ∧
  String.eqb (Request.pathname request) "/ws"
    || bool_decide
         (Headers.get "Upgrade" (Request.headers request) = Some "websocket")
    = false.
Proof.
  intros (H1 & H2 & H3 & H4).
  rewrite (proj2 (String.eqb_neq _ _) H1), (proj2 (String.eqb_neq _ _) H2),
    (proj2 (String.eqb_neq _ _) H3), (bool_decide_eq_false_2 _ H4).
  done.
Qed.

(** Only a proxied request gets as far as the choice of a backend. *)
Lemma route_forward_proxied cfg rt request w index backend w1 :
  route cfg rt request w = Forward index backend w1 → proxied request.
Proof.
  unfold route, proxied. intros Hr.
  destruct (String.eqb_spec (Request.pathname request) "/health"); [done|].
  destruct (String.eqb_spec (Request.pathname request) "/metrics"); [done|].
  destruct (String.eqb_spec (Request.pathname request) "/ws").
  { cbn [orb] in Hr. by destruct (handleWebSocket _ _). }
  destruct (decide (Headers.get "Upgrade" (Request.headers request)
                    = Some "websocket")) as [Hup|Hup].
  { rewrite (bool_decide_eq_true_2 _ Hup) in Hr. cbn [orb] in Hr.
    by destruct (handleWebSocket _ _). }
  done.
Qed.

Lemma checkLimit_denied cfg now c (table : gmap string (list Z)) :
  (RateLimiter.checkLimit cfg now c table).1 = false →
  RateLimiter.checkLimit cfg now c table = (false, table).
Proof. unfold RateLimiter.checkLimit. by repeat case_match. Qed.

Lemma with_requests_same w : with_requests (requests w) w = w.
Proof. by destruct w. Qed.

(** X16. ["/health"] and ["/metrics"] are answered with status 200 and a JSON
    body whose metrics count the request being answered; nothing but
    [totalRequests] changes: no rate limiting, no cache, no backend. *)
Theorem introspection_only_counts cfg rt request w :
  Request.pathname request = "/health" ∨
  Request.pathname request = "/metrics" →
  (handleRequest cfg rt request w).2 = ConnectionPool.count_request w ∧
  Response.status (handleRequest cfg rt request w).1 = 200 ∧
  Response.headers (handleRequest cfg rt request w).1 = json_headers ∧
  ∃ fields,
    Response.body (handleRequest cfg rt request w).1
      = Response.Json (JObj fields) ∧
    field "metrics" fields
      = Some (metrics_json (metrics (ConnectionPool.count_request w))).
Proof.
  intros [Hp|Hp]; unfold handleRequest, route; rewrite Hp.
  - change (String.eqb "/health" "/health") with true. cbv iota.
    repeat split. eexists. split; reflexivity.
  - change (String.eqb "/metrics" "/health") with false.
    change (String.eqb "/metrics" "/metrics") with true. cbv iota.
    repeat split. eexists. split; reflexivity.
Qed.

Lemma introspection_only_counts_witness :
  (handleRequest shipped (answered 1000) (get_from "US" "/metrics") busy).2
    = ConnectionPool.count_request busy.
Proof.
  refine (proj1 (introspection_only_counts shipped (answered 1000)
                   (get_from "US" "/metrics") busy _)).
  right. reflexivity.
Defined.

(** X17. A proxied request that the rate limiter denies is answered with status
    429 and the headers [retry-after: 60] and [x-rate-limit]; nothing but
    [totalRequests] changes: the request is not recorded, the cache is not
    asked and no backend is called. *)
Theorem denied_request cfg rt request w :
  proxied request →
  (RateLimiter.checkLimit (rateLimit cfg) (now rt) (clientId_of request)
     (requests w)).1 = false →
  handleRequest cfg rt request w
    = (Response.make (Response.Text "Rate limit exceeded") 429
         [("retry-after", "60");
          ("x-rate-limit",
           pretty (RateLimiter.requestsPerMinute (rateLimit cfg)))],
       ConnectionPool.count_request w).
Proof.
  intros Hg Hdenied. apply proxied_gate in Hg as (H1 & H2 & H3).
  apply checkLimit_denied in Hdenied.
  unfold handleRequest, route. rewrite H1, H2, H3.
  unfold clientId_of in Hdenied. world_simpl. rewrite Hdenied. cbn [negb].
  reflexivity.
Qed.

Lemma denied_request_witness :
  handleRequest strict (answered 10) (get_from "US" "/api/data") busy
    = (Response.make (Response.Text "Rate limit exceeded") 429
         [("retry-after", "60"); ("x-rate-limit", pretty 2)],
       ConnectionPool.count_request busy).
Proof.
  apply (denied_request strict (answered 10) (get_from "US" "/api/data") busy).
  - repeat split; discriminate.
  - unfold RateLimiter.checkLimit, busy. world_simpl.
    change (clientId_of (get_from "US" "/api/data")) with "198.51.100.7".
    rewrite lookup_singleton_eq. reflexivity.
Defined.

(** X18. A request with the header [Upgrade: websocket], on any path but the
    two introspection paths, is answered with status 101 and the client
    end of a new socket pair, whose server end is accepted and kept alive;
    the rate limiter, the cache and the backends are not involved. *)
Theorem websocket_upgrade_accepted cfg rt request w :
  Request.pathname request ≠ "/health" →
  Request.pathname request ≠ "/metrics" →
  Headers.get "Upgrade" (Request.headers request) = Some "websocket" →
  Response.status (handleRequest cfg rt request w).1 = 101 ∧
  Response.webSocket (handleRequest cfg rt request w).1
    = Some (length (sessions w)) ∧
  (handleRequest cfg rt request w).2
    = with_sessions (sessions w ++ [{| accepted := true; keepAlive := true |}])
        (ConnectionPool.count_request w).
Proof.
  intros H1 H2 Hup. unfold handleRequest, route, handleWebSocket.
  rewrite (proj2 (String.eqb_neq _ _) H1), (proj2 (String.eqb_neq _ _) H2).
  rewrite Hup, bool_decide_eq_true_2, orb_true_r by done.
  change (not_websocket (Some "websocket")) with false. by world_simpl.
Qed.

Lemma websocket_upgrade_accepted_witness :
  Response.status
    (handleRequest shipped (answered 1000)
       {| Request.method := "GET"; Request.url := "https://edge.example.com/ws";
          Request.pathname := "/ws"; Request.search := "";
          Request.headers := [("upgrade", "websocket")];
          Request.body := None |} (started [backend_A])).1 = 101.
Proof.
  refine (proj1 (websocket_upgrade_accepted shipped (answered 1000) _
                   (started [backend_A]) _ _ _));
    [discriminate|discriminate|reflexivity].
Defined.

(** X19. The rate limiter is asked once for a proxied request, under the
    address in [cf-connecting-ip], and under ["unknown"] when that header
    is missing or empty; it is not asked for any other request. *)
Theorem rate_limited_by_address cfg rt request w :
  (proxied request →
   requests (handleRequest cfg rt request w).2
     = (RateLimiter.checkLimit (rateLimit cfg) (now rt) (clientId_of request)
          (requests w)).2) ∧
  (¬ proxied request →
   requests (handleRequest cfg rt request w).2 = requests w) ∧
  (Headers.get "cf-connecting-ip" (Request.headers request) = None ∨
   Headers.get "cf-connecting-ip" (Request.headers request) = Some "" →
   clientId_of request = "unknown").
Proof.
  split; [|split].
  - intros Hg. apply proxied_gate in Hg as (H1 & H2 & H3).
    unfold handleRequest, route, forward, CacheManager.get, CacheManager.put,
      clientId_of.
    rewrite H1, H2, H3. world_simpl.
    repeat case_match; simplify_eq; by world_simpl.
  - intros Hng. unfold handleRequest, route, handleWebSocket.
    destruct (String.eqb_spec (Request.pathname request) "/health");
      [by world_simpl|].
    destruct (String.eqb_spec (Request.pathname request) "/metrics");
      [by world_simpl|].
    destruct (String.eqb_spec (Request.pathname request) "/ws").
    { cbn [orb]. by destruct (not_websocket _); world_simpl. }
    destruct (decide (Headers.get "Upgrade" (Request.headers request)
                      = Some "websocket")) as [Hup|Hup].
    { rewrite (bool_decide_eq_true_2 _ Hup). cbn [orb].
      by destruct (not_websocket _); world_simpl. }
    by destruct Hng.
  - unfold clientId_of. by intros [-> | ->].
Qed.

End handler_more.

Section forwarding_more.

(** X20. A request makes at most one [fetch].  The one it makes has the
    method of the request and carries no [cookie] and no [authorization]
    header; its url is built from the pathname and search of the request
    against the url of an entry of [CONFIG.backends], and points to that
    backend, with that path and query, when the pathname begins with one
    slash and not with two. *)
Theorem one_fetch_without_credentials cfg rt request w :
  fetches (handleRequest cfg rt request w).2 = fetches w ∨
  ∃ call i b,
    fetches (handleRequest cfg rt request w).2 = fetches w ++ [call] ∧
    backends w !! i = Some b ∧
    fetch_backend call = Backend.url b ∧
    fetch_path call = Request.pathname request +:+ Request.search request ∧
    fetch_method call = Request.method request ∧
    Headers.has "cookie" (fetch_headers call) = false ∧
    Headers.has "authorization" (fetch_headers call) = false ∧
    (String.prefix "/" (Request.pathname request +:+ Request.search request)
       = true →
     String.prefix "//" (Request.pathname request +:+ Request.search request)
       = false →
     target call
       = OnBase (Backend.url b)
           (Request.pathname request +:+ Request.search request)).
Proof.
  unfold handleRequest.
  destruct (route cfg rt request w) as [response w1|i b w1] eqn:Hr.
  - left. pose proof (route_quiet cfg rt request w) as [Hf _].
    by rewrite Hr in Hf.
  - right. destruct (route_forward _ _ _ _ _ _ _ Hr) as (_ & Hf & _ & Hi).
    eexists _, i, b.
    split; [|split; [exact Hi|]].
    + unfold forward, CacheManager.put.
      repeat case_match; world_simpl; by rewrite Hf.
    + unfold target.
      cbn [fetch_backend fetch_path fetch_method fetch_headers
           RequestOptimizer.optimizeRequest Request.method Request.headers].
      split; [done|]. split; [done|]. split; [done|].
      split; [|split]; [| |by intros -> ->]; apply has_false; intros e He.
      * apply (optimizeHeaders_without cfg (Request.headers request)
                 "cookie" e); [by left|done].
      * apply (optimizeHeaders_without cfg (Request.headers request)
                 "authorization" e); [by right|done].
Qed.

Lemma one_fetch_without_credentials_witness :
  let w := started [backend_A; backend_B] in
  let request := get_from "GB" "/api/data" in
  ∃ call i b,
    fetches (handleRequest shipped (answered 1000) request w).2
      = fetches w ++ [call] ∧
    backends w !! i = Some b ∧
    target call = OnBase (Backend.url b) "/api/data".
Proof.
  intros w request.
  destruct (one_fetch_without_credentials shipped (answered 1000) request w)
    as [Hnone|(call & i & b & Hf & Hi & _ & _ & _ & _ & _ & Ht)].
  - exfalso. vm_compute in Hnone. discriminate Hnone.
  - exists call, i, b. split; [exact Hf|]. split; [exact Hi|].
    exact (Ht eq_refl eq_refl).
Defined.



(** The answer to a cacheable proxied request that is admitted and that
    the cache holds. *)
Lemma cache_hit_answer cfg rt request w stored :
  proxied request →
  (RateLimiter.checkLimit (rateLimit cfg) (now rt) (clientId_of request)
     (requests w)).1 = true →
  CacheManager.shouldCache cfg request = true →
  matchThrows rt = false →
  cache w !! Request.url request = Some stored →
  Response.status (handleRequest cfg rt request w).1 = Response.status stored ∧
  Response.body (handleRequest cfg rt request w).1 = Response.body stored ∧
  Headers.get "x-cache" (Response.headers (handleRequest cfg rt request w).1)
    = Some "HIT" ∧
  Headers.get "x-cache-hits"
    (Response.headers (handleRequest cfg rt request w).1)
    = Some (pretty (cacheHits (metrics w) + 1)) ∧
  cacheHits (metrics (handleRequest cfg rt request w).2)
    = cacheHits (metrics w) + 1 ∧
  fetches (handleRequest cfg rt request w).2 = fetches w ∧
  backends (handleRequest cfg rt request w).2 = backends w.
Proof.
  intros Hg Hadmit Hsc Hmt Hstored.
  apply proxied_gate in Hg as (H1 & H2 & H3).
  unfold handleRequest, route, CacheManager.get. rewrite H1, H2, H3.
  unfold clientId_of in Hadmit. world_simpl.
  destruct (RateLimiter.checkLimit _ _ _ _) as [allowed table].
  simpl in Hadmit. subst allowed. cbn [negb]. rewrite Hsc, Hmt. cbn [negb].
  world_simpl. rewrite Hstored. world_simpl.
  cbn [Response.with_headers Response.status Response.body Response.headers].
  repeat split;
    repeat first [ rewrite get_set_same
                 | rewrite get_set_other by discriminate ]; reflexivity.
Qed.

(** X22. A cacheable proxied request that the rate limiter admits and the cache
    holds is answered from the cache, marked [x-cache: HIT], with the
    stored status and body; one hit is counted, no backend is chosen and no
    [fetch] is made. *)
Theorem cache_hit_served cfg rt request w stored :
  proxied request →
  (RateLimiter.checkLimit (rateLimit cfg) (now rt) (clientId_of request)
     (requests w)).1 = true →
  CacheManager.shouldCache cfg request = true →
  matchThrows rt = false →
  cache w !! Request.url request = Some stored →
  Response.status (handleRequest cfg rt request w).1 = Response.status stored ∧
  Response.body (handleRequest cfg rt request w).1 = Response.body stored ∧
  Headers.get "x-cache" (Response.headers (handleRequest cfg rt request w).1)
    = Some "HIT" ∧
  Headers.get "x-cache-hits"
    (Response.headers (handleRequest cfg rt request w).1)
    = Some (pretty (cacheHits (metrics w) + 1)) ∧
  cacheHits (metrics (handleRequest cfg rt request w).2)
    = cacheHits (metrics w) + 1 ∧
  fetches (handleRequest cfg rt request w).2 = fetches w ∧
  backends (handleRequest cfg rt request w).2 = backends w.
Proof. apply cache_hit_answer. Qed.

Lemma cache_hit_served_witness :
  let w := CacheManager.put shipped false (get_from "US" "/api/data")
             (Response.make (Response.Stream "ok") 200 [])
             (started [backend_A]) in
  Headers.get "x-cache"
    (Response.headers
       (handleRequest shipped (answered 1000) (get_from "US" "/api/data") w).1)
    = Some "HIT".
Proof.
  intros w.
  refine (proj1 (proj2 (proj2
            (cache_hit_served shipped (answered 1000)
               (get_from "US" "/api/data") w
               (Response.with_headers
                  (Headers.set "x-cache-status" "HIT"
                     (Headers.set "cache-control"
                        ("public, max-age=" +:+ pretty (cache_ttl shipped)) []))
                  (Response.make (Response.Stream "ok") 200 []))
               _ _ _ _ _)))).
  - repeat split; discriminate.
  - unfold w, CacheManager.put.
    change (CacheManager.shouldCache shipped (get_from "US" "/api/data"))
      with true.
    cbn [negb]. unfold started. world_simpl. unfold RateLimiter.checkLimit.
    change (clientId_of (get_from "US" "/api/data")) with "198.51.100.7".
    rewrite lookup_empty. reflexivity.
  - reflexivity.
  - reflexivity.
  - unfold w, CacheManager.put.
    change (CacheManager.shouldCache shipped (get_from "US" "/api/data"))
      with true.
    cbn [negb]. world_simpl. apply lookup_insert_eq.
Defined.

(** X23. A cacheable request that was forwarded and answered, and whose answer
    the cache took, is answered from the cache the next time the rate
    limiter admits it: with the status and body of the backend's answer,
    marked [x-cache: HIT], and without a second [fetch]. *)
Theorem forwarded_then_hit cfg rt rt' request w index backend w1 response
    latency :
  route cfg rt request w = Forward index backend w1 →
  CacheManager.shouldCache cfg request = true →
  fetched rt = Resolved response latency →
  putThrows rt = false →
  matchThrows rt' = false →
  (RateLimiter.checkLimit (rateLimit cfg) (now rt') (clientId_of request)
     (requests (handleRequest cfg rt request w).2)).1 = true →
  let w' := (handleRequest cfg rt request w).2 in
  Response.status (handleRequest cfg rt' request w').1
    = Response.status response ∧
  Response.body (handleRequest cfg rt' request w').1 = Response.body response ∧
  Headers.get "x-cache" (Response.headers (handleRequest cfg rt' request w').1)
    = Some "HIT" ∧
  fetches (handleRequest cfg rt' request w').2 = fetches w'.
Proof.
  intros Hr Hsc Hf Hpt Hmt Hadmit w'.
  pose proof (route_forward_proxied _ _ _ _ _ _ _ Hr) as Hg.
  assert (∃ stored, cache w' !! Request.url request = Some stored ∧
                    Response.status stored = Response.status response ∧
                    Response.body stored = Response.body response)
    as (stored & Hstored & Hst & Hbody).
  { unfold w', handleRequest. rewrite Hr. unfold forward. rewrite Hf, Hpt.
    unfold CacheManager.put. rewrite Hsc. cbn [negb]. world_simpl.
    rewrite lookup_insert_eq. by eexists. }
  destruct (cache_hit_answer cfg rt' request w' stored Hg Hadmit Hsc Hmt Hstored)
    as (H1 & H2 & H3 & _ & _ & H6 & _).
  rewrite H1, H2, Hst, Hbody. done.
Qed.

Lemma fmap_alter_healthy {A} (f : Backend.t → A) h i (l : list Backend.t) :
  (∀ b, f (Backend.set_healthy h b) = f b) →
  f <$> alter (Backend.set_healthy h) i l = f <$> l.
Proof.
  intros Hf. apply list_eq. intros j. rewrite !list_lookup_fmap.
  destruct (decide (i = j)) as [->|Hne].
  - rewrite list_lookup_alter_eq. destruct (l !! j); simpl; by rewrite ?Hf.
  - by rewrite list_lookup_alter_ne.
Qed.

(** X24. Whatever the operation, [CONFIG.backends] has the same backends in the
    same order afterwards, with their urls, priorities and regions: only
    the [healthy] flags change. *)
Theorem registry_fixed cfg op w :
  Backend.url <$> backends (perform cfg op w) = Backend.url <$> backends w ∧
  Backend.priority <$> backends (perform cfg op w)
    = Backend.priority <$> backends w ∧
  Backend.region <$> backends (perform cfg op w)
    = Backend.region <$> backends w.
Proof.
  assert (∀ {A} (f : Backend.t → A),
            (∀ h b, f (Backend.set_healthy h b) = f b) →
            f <$> backends (perform cfg op w) = f <$> backends w) as Hfix.
  { intros A f Hf. destruct op as [rt request|probe t|key c|key]; cbn [perform].
    - unfold handleRequest.
      destruct (route cfg rt request w) as [response w1|i b w1] eqn:Hr.
      + pose proof (route_quiet cfg rt request w) as [_ Hb].
        rewrite Hr in Hb. simpl in *. by rewrite Hb.
      + destruct (route_forward _ _ _ _ _ _ _ Hr) as (Hb & _).
        unfold forward, CacheManager.put.
        repeat case_match; world_simpl; rewrite ?Hb; try done.
        all: by apply fmap_alter_healthy.
    - unfold handleScheduled, HealthChecker.updateHealthStatus. world_simpl.
      rewrite fmap_imap.
      rewrite (imap_ext _ (λ _, f)) by (intros ? ? _; apply Hf).
      apply imap_const.
    - unfold ConnectionPool.setConnection. by world_simpl.
    - unfold ConnectionPool.removeConnection. by world_simpl. }
  split; [|split]; by apply Hfix.
Qed.

End forwarding_more.

(** ** More on the message listener *)

Section listener_more.
Context {N : Type} `{JSNumber N}.

(** X25. The listener sends at most one envelope per message, and none exactly
    when the message is an object whose [type] is ["pong"].  A message
    that does not parse is answered with an error envelope carrying the
    parser's message. *)
Theorem on_message_one_reply t1 t2 (p : Parse (N := N)) :
  (length (on_message t1 t2 p) ≤ 1)%nat ∧
  (on_message t1 t2 p = [] ↔
     ∃ fields, p = Parsed (JObj fields) ∧
               field "type" fields = Some (JStr "pong")) ∧
  (∀ m, p = Unparsable m →
        on_message t1 t2 p
          = [JObj [("type", JStr "error"); ("error", JStr m)]]).
Proof.
  split; [|split].
  - unfold on_message. repeat case_match; simpl; lia.
  - split.
    + unfold on_message, respond. destruct p as [data|m]; [|done].
      cbn [parse mbind Completion_bind].
      destruct data as [|b|n|s|items|fields];
        cbn [member mbind Completion_bind is_pong]; try (by simpl).
      destruct (field "type" fields) as [[|b|n|s|items|fs]|] eqn:Hty;
        cbn [is_pong]; try (by destruct (ToNumber _)).
      destruct (String.eqb_spec s "pong") as [->|Hs].
      * intros _. by exists fields.
      * by destruct (ToNumber _).
    + intros (fields & -> & Hty). unfold on_message, respond.
      cbn [parse mbind Completion_bind member]. by rewrite Hty.
  - by intros m ->.
Qed.

(** X26. A message that parses to a number, a string, a boolean or an array
    has no [type] and no [timestamp]: it is echoed in a response envelope
    whose latency is the clock minus NaN. *)
Theorem on_message_bare_value t1 t2 (data : json N) :
  data ≠ JNull →
  (∀ fields, data ≠ JObj fields) →
  on_message t1 t2 (Parsed data)
    = [JObj [("type", JStr "response");
             ("data", data);
             ("timestamp", JNum (of_Z t1));
             ("latency", JNum (sub (of_Z t2) nan))]].
Proof.
  intros Hnull Hobj.
  destruct data as [|b|n|s|items|fields]; try done.
  by destruct (Hobj fields).
Qed.

End listener_more.

Lemma on_message_bare_value_witness :
  on_message 1000 1001 (Parsed (JStr "ping" : json (option Z)))
    = [JObj [("type", JStr "response");
             ("data", JStr "ping");
             ("timestamp", JNum (Some 1000));
             ("latency", JNum None)]].
Proof.
  refine (on_message_bare_value 1000 1001 (JStr "ping") _ _); discriminate.
Defined.

Lemma forwarded_then_hit_witness :
  let request := get_from "GB" "/api/data" in
  let w' := (handleRequest shipped (answered 1000) request
               (started [backend_A; backend_B])).2 in
  Response.status (handleRequest shipped (answered 2000) request w').1 = 200 ∧
  Response.body (handleRequest shipped (answered 2000) request w').1
    = Response.Stream "ok" ∧
  Headers.get "x-cache"
    (Response.headers (handleRequest shipped (answered 2000) request w').1)
    = Some "HIT" ∧
  fetches (handleRequest shipped (answered 2000) request w').2 = fetches w'.
Proof.
  intros request w'.
  assert (route shipped (answered 1000) request (started [backend_A; backend_B])
          = Forward 1 backend_B
              (routed_world
                 (route shipped (answered 1000) request
                    (started [backend_A; backend_B])))) as Hr
    by (vm_compute; reflexivity).
  assert ((RateLimiter.checkLimit (rateLimit shipped) (now (answered 2000))
             (clientId_of request)
             (requests (handleRequest shipped (answered 1000) request
                          (started [backend_A; backend_B])).2)).1 = true)
    as Hadmit by (vm_compute; reflexivity).
  exact (forwarded_then_hit shipped (answered 1000) (answered 2000) request
           (started [backend_A; backend_B]) _ _ _ _ 12
           Hr eq_refl eq_refl eq_refl eq_refl Hadmit).
Defined.
